(** * proxi: URL-rewriting reverse proxy (src/index.ts)

    A shallow embedding of the worker's source and the properties of its
    rewriting engine, stream rewriters, orchestrator and request handler.

    Strings are sequences of 8-bit code units ([string]); the ECMAScript
    string primitives the source calls ([replaceAll], [replace], [match],
    [startsWith], [includes], [substr]) are modelled after ECMA-262, including
    the expansion of [$]-patterns in replacement strings (GetSubstitution).
    What belongs to the runtime and not to the repository (the URL parser, the
    network, the streaming HTML rewriter, the status text of a response
    constructed without one) is a parameter of the embedding; a
    thrown exception or a rejected promise is the value [None].  A header set
    is a finite map from lower-cased names to values. *)

From stdpp Require Import gmap strings.
From Stdlib Require Import Ascii Lia.
From Stdlib Require String.

(** ** ECMAScript string primitives *)
Module JS.

(** [s.startsWith(p)] *)
Definition startsWith (p s : string) : bool := String.prefix p s.

(** [s.substr(n)]: the suffix of [s] from index [n]. *)
Fixpoint substr (n : nat) (s : string) : string :=
  match n, s with
  | O, _ => s
  | S n', String _ s' => substr n' s'
  | S _, EmptyString => EmptyString
  end.

(** [s.substring(0, n)]: the first [n] code units of [s]. *)
Fixpoint take (n : nat) (s : string) : string :=
  match n, s with
  | S n', String c s' => String c (take n' s')
  | _, _ => EmptyString
  end.

(** [s.includes(p)]: [p] occurs in [s] at some index (the empty string
    occurs everywhere). *)
Fixpoint includes (p s : string) : bool :=
  startsWith p s ||
  match s with
  | EmptyString => false
  | String _ s' => includes p s'
  end.

Definition is_digit (c : ascii) : bool :=
  (48 <=? nat_of_ascii c)%nat && (nat_of_ascii c <=? 57)%nat.

Definition digit_val (c : ascii) : nat := nat_of_ascii c - 48.

(** The [index]-th capture (1-based) as GetSubstitution reads it: [None]
    when [index] is outside [1..m], the empty string for a group that did not
    participate. *)
Definition capture (captures : list (option string)) (index : nat)
  : option string :=
  match index with
  | O => None
  | S i =>
      match nth_error captures i with
      | Some (Some s) => Some s
      | Some None => Some EmptyString
      | None => None
      end
  end.

(** GetSubstitution(matched, str, position, captures, undefined, template)
    of ECMA-262: expands [$$], [$&], [$`], [$'], [$n] and [$nn] in the
    replacement template; every other code unit is copied.  There are no named
    captures in the source, so [$<] is copied literally. *)
Fixpoint GetSubstitution (matched str : string) (position : nat)
    (captures : list (option string)) (template : string) : string :=
  match template with
  | EmptyString => EmptyString
  | String "$" t1 =>
      match t1 with
      | String "$" t2 =>
          String "$" (GetSubstitution matched str position captures t2)
      | String "`" t2 =>
          take position str
            +:+ GetSubstitution matched str position captures t2
      | String "&" t2 =>
          matched +:+ GetSubstitution matched str position captures t2
      | String "'" t2 =>
          substr (position + String.length matched) str
            +:+ GetSubstitution matched str position captures t2
      | String d1 t2 =>
          if is_digit d1 then
            let one :=
              match capture captures (digit_val d1) with
              | Some c => c
              | None => String "$" (String d1 EmptyString)
              end +:+ GetSubstitution matched str position captures t2 in
            match t2 with
            | String d2 t3 =>
                if is_digit d2 then
                  let index := 10 * digit_val d1 + digit_val d2 in
                  if (index <=? List.length captures)%nat then
                    match capture captures index with
                    | Some c => c
                    | None =>
                        String "$" (String d1 (String d2 EmptyString))
                    end +:+ GetSubstitution matched str position captures t3
                  else one
                else one
            | EmptyString => one
            end
          else String "$" (GetSubstitution matched str position captures t1)
      | EmptyString => String "$" EmptyString
      end
  | String c t => String c (GetSubstitution matched str position captures t)
  end.

(** The matches of a non-empty [searchString] are found left to right and do
    not overlap: after a match at [position] the scan resumes at
    [position + searchLength].  [skip] counts the code units of the current
    match that are still to be consumed. *)
Fixpoint replaceAll_scan (searchString replaceValue str : string)
    (skip position : nat) (rest : string) : string :=
  match rest with
  | EmptyString => EmptyString
  | String c rest' =>
      match skip with
      | S k => replaceAll_scan searchString replaceValue str k (S position) rest'
      | O =>
          if startsWith searchString rest then
            GetSubstitution searchString str position [] replaceValue
              +:+ replaceAll_scan searchString replaceValue str
                    (String.length searchString - 1) (S position) rest'
          else
            String c
              (replaceAll_scan searchString replaceValue str 0 (S position) rest')
      end
  end.

(** An empty [searchString] matches at every index [0..length], advancing by
    one code unit. *)
Fixpoint replaceAll_empty (replaceValue str : string)
    (position : nat) (rest : string) : string :=
  GetSubstitution EmptyString str position [] replaceValue +:+
  match rest with
  | EmptyString => EmptyString
  | String c rest' =>
      String c (replaceAll_empty replaceValue str (S position) rest')
  end.

(** [str.replaceAll(searchString, replaceValue)] for string arguments. *)
Definition replaceAll (searchString replaceValue str : string) : string :=
  match searchString with
  | EmptyString => replaceAll_empty replaceValue str 0 str
  | _ => replaceAll_scan searchString replaceValue str 0 0 str
  end.

(** *** Regular expressions

    A backtracking matcher for the fragment of ECMAScript regular expressions
    the source uses: [^], character classes, concatenation, greedy [?] and
    [*], and numbered capturing groups.  Alternatives are tried in the order
    of the ECMAScript semantics (greedy first), and an iteration of [*] that
    consumes nothing is rejected. *)
Inductive regex :=
| Eps
| Bol
| Class (p : ascii -> bool)
| Cat (r1 r2 : regex)
| Opt (r : regex)
| Star (r : regex)
| Group (i : nat) (r : regex).

Fixpoint lit (s : string) : regex :=
  match s with
  | EmptyString => Eps
  | String c s' => Cat (Class (Ascii.eqb c)) (lit s')
  end.

Definition Plus (r : regex) : regex := Cat r (Star r).

(** [\w]: [A-Za-z0-9_]. *)
Definition word_char (c : ascii) : bool :=
  let n := nat_of_ascii c in
  ((65 <=? n)%nat && (n <=? 90)%nat) || ((97 <=? n)%nat && (n <=? 122)%nat)
  || is_digit c || Ascii.eqb c "_".

(** [.]: any code unit but a line terminator (LF and CR among the 8-bit
    code units). *)
Definition dot (c : ascii) : bool :=
  negb (Ascii.eqb c "010" || Ascii.eqb c "013").

Fixpoint set_capture (i : nat) (v : string) (caps : list (option string))
  : list (option string) :=
  match i, caps with
  | 1, _ :: caps' => Some v :: caps'
  | S i', c :: caps' => c :: set_capture i' v caps'
  | _, _ => caps
  end.

(** The loop of a greedy [*]: [step] matches the starred expression once.  One
    more iteration is tried first; an iteration that consumes nothing is
    rejected; when no further iteration leads to a match, [k] continues from
    the current index.  Every accepted iteration consumes a code unit, so the
    length of the remaining input bounds their number. *)
Fixpoint iterate {R : Type}
    (step : nat -> string -> list (option string) ->
            (nat -> string -> list (option string) -> option R) -> option R)
    (k : nat -> string -> list (option string) -> option R)
    (fuel pos : nat) (s : string) (caps : list (option string)) : option R :=
  match fuel with
  | O => k pos s caps
  | S fuel' =>
      match
        step pos s caps
          (fun pos' s' caps' =>
             if (pos' =? pos)%nat then None
             else iterate step k fuel' pos' s' caps')
      with
      | Some x => Some x
      | None => k pos s caps
      end
  end.

(** [run r pos s caps k]: match [r] at index [pos], where [s] is the input
    from [pos] on, and continue with [k]; [None] makes the matcher
    backtrack. *)
Fixpoint run {R : Type} (r : regex) (pos : nat) (s : string)
    (caps : list (option string))
    (k : nat -> string -> list (option string) -> option R) : option R :=
  match r with
  | Eps => k pos s caps
  | Bol => if (pos =? 0)%nat then k pos s caps else None
  | Class p =>
      match s with
      | String c s' => if p c then k (S pos) s' caps else None
      | EmptyString => None
      end
  | Cat r1 r2 =>
      run r1 pos s caps (fun pos' s' caps' => run r2 pos' s' caps' k)
  | Opt r1 =>
      match run r1 pos s caps k with
      | Some x => Some x
      | None => k pos s caps
      end
  | Star r1 => iterate (run r1) k (String.length s) pos s caps
  | Group i r1 =>
      run r1 pos s caps
        (fun pos' s' caps' => k pos' s' (set_capture i (take (pos' - pos) s) caps'))
  end.

(** The result of RegExp exec: the index of the match, the matched text and
    the captures [1..m]. *)
Record MatchResult := mkMatch {
  index : nat;
  matched : string;
  captures : list (option string)
}.

(** One attempt at index [pos]. *)
Definition exec_at (r : regex) (m pos : nat) (rest : string)
  : option MatchResult :=
  run r pos rest (repeat None m)
    (fun pos' _ caps => Some (mkMatch pos (take (pos' - pos) rest) caps)).

(** The first index, from [pos] on, at which the expression matches. *)
Fixpoint exec_from (r : regex) (m pos : nat) (rest : string)
  : option MatchResult :=
  match exec_at r m pos rest with
  | Some res => Some res
  | None =>
      match rest with
      | EmptyString => None
      | String _ rest' => exec_from r m (S pos) rest'
      end
  end.

(** [str.match(re)] for an expression [re] with [m] groups and no [g] flag. *)
Definition match_ (r : regex) (m : nat) (str : string) : option MatchResult :=
  exec_from r m 0 str.

(** [str.replace(re, template)] for an expression without the [g] flag. *)
Definition replace (r : regex) (m : nat) (template str : string) : string :=
  match exec_from r m 0 str with
  | None => str
  | Some res =>
      take (index res) str
        +:+ GetSubstitution (matched res) str (index res) (captures res) template
        +:+ substr (index res + String.length (matched res)) str
  end.

(** Template-literal interpolation of a capture. *)
Definition interpolate (c : option (option string)) : string :=
  match c with
  | Some (Some s) => s
  | _ => "undefined"
  end.

End JS.

(** ** The platform's URL objects

    The [URL] class belongs to the runtime; a URL object is modelled by the
    properties the source reads. *)
Record URL := mkURL {
  href : string;
  origin : string;
  protocol : string;
  hostname : string;
  port : string;
  pathname : string
}.

(** ** RuleEngine: [rewrite] (index.ts, lines 40-73) *)

(** JavaScript truthiness of a string. *)
Definition truthy (s : string) : bool :=
  match s with EmptyString => false | _ => true end.

(** The one-character string holding a double quote (code unit 34). *)
Definition dquote : string := String "034"%char EmptyString.

Definition hostPort (u : URL) : string :=
  if truthy (port u) then hostname u +:+ ":" +:+ port u else hostname u.

Definition rewrite (originURL publicURL : URL) (text : option string) : string :=
  match text with
  | None => ""
  | Some text =>
      let originURLHostPort := hostPort originURL in
      let publicURLHostPort := hostPort publicURL in
      let t1 := JS.replaceAll "'/" ("'" +:+ origin publicURL +:+ "/") text in
      let t2 := JS.replaceAll (dquote +:+ "/") (dquote +:+ origin publicURL +:+ "/") t1 in
      let t3 := JS.replaceAll "</" ("<" +:+ origin publicURL +:+ "/") t2 in
      let t4 :=
        JS.replaceAll
          (JS.replaceAll "/" "\/" (origin originURL))
          (JS.replaceAll "/" "\/" (origin publicURL)
             +:+ JS.replaceAll "/" "\/" (pathname publicURL))
          t3 in
      let t5 := JS.replaceAll (origin originURL) (origin publicURL) t4 in
      let t6 :=
        JS.replaceAll
          ("//" +:+ originURLHostPort +:+ pathname originURL)
          ("//" +:+ publicURLHostPort +:+ pathname publicURL +:+ "/")
          t5 in
      JS.replaceAll (hostname originURL) publicURLHostPort t6
  end.


(** ** TextRewriter (index.ts, lines 1-14) *)

(** A text chunk event of the streaming rewriter. *)
Record Text := mkText {
  text : string;
  lastInTextNode : bool
}.

(** What a handler did to the chunk it was given: [text.replace(content,
    { html })] or [text.remove()]. *)
Inductive TextAction :=
| Replaced (content : string) (html : bool)
| Removed.

Record TextRewriter := mkTextRewriter {
  rewriter : string -> string;
  buffer : string
}.

(** [new TextRewriter(rewriter)]: the buffer defaults to the empty string. *)
Definition newTextRewriter (rewriter : string -> string) : TextRewriter :=
  mkTextRewriter rewriter "".

(** [TextRewriter.text]: the state after the call and the action taken. *)
Definition onText (this : TextRewriter) (t : Text) : TextRewriter * TextAction :=
  let buffer' := buffer this +:+ text t in
  if lastInTextNode t then
    (mkTextRewriter (rewriter this) "", Replaced (rewriter this buffer') true)
  else
    (mkTextRewriter (rewriter this) buffer', Removed).

(** The handler driven over the chunk events of a stream, in order. *)
Fixpoint onTexts (this : TextRewriter) (ts : list Text)
  : TextRewriter * list TextAction :=
  match ts with
  | [] => (this, [])
  | t :: ts' =>
      let '(this', a) := onText this t in
      let '(this'', acts) := onTexts this' ts' in
      (this'', a :: acts)
  end.

(** What the actions leave in the output stream. *)
Definition emitted (acts : list TextAction) : list string :=
  omap (fun a => match a with Replaced c _ => Some c | Removed => None end) acts.

(** A logical text node cut into chunks: every chunk but the final one is
    unflagged. *)
Definition chunks (init : list string) (final : string) : list Text :=
  map (fun s => mkText s false) init ++ [mkText final true].

Definition node_text (init : list string) (final : string) : string :=
  fold_right String.append final init.

(** ** HTTP header sets

    A [Headers] object maps lower-cased names to values; [set] stores the
    value with leading and trailing HTTP whitespace removed. *)
Definition lower_char (c : ascii) : ascii :=
  let n := nat_of_ascii c in
  if ((65 <=? n)%nat && (n <=? 90)%nat)%bool then ascii_of_nat (n + 32) else c.

Fixpoint lower (s : string) : string :=
  match s with
  | EmptyString => EmptyString
  | String c s' => String (lower_char c) (lower s')
  end.

Definition http_whitespace (c : ascii) : bool :=
  (Ascii.eqb c "009" || Ascii.eqb c "010" || Ascii.eqb c "013"
   || Ascii.eqb c " ")%bool.

Fixpoint trim_start (s : string) : string :=
  match s with
  | String c s' => if http_whitespace c then trim_start s' else s
  | EmptyString => EmptyString
  end.

Fixpoint trim_end (s : string) : string :=
  match s with
  | EmptyString => EmptyString
  | String c s' =>
      match trim_end s' with
      | EmptyString =>
          if http_whitespace c then EmptyString else String c EmptyString
      | r => String c r
      end
  end.

Definition normalize_value (v : string) : string := trim_end (trim_start v).

Module Headers.

Definition get (name : string) (h : gmap string string) : option string :=
  h !! lower name.

Definition has (name : string) (h : gmap string string) : bool :=
  bool_decide (is_Some (h !! lower name)).

Definition set (name value : string) (h : gmap string string)
  : gmap string string :=
  <[lower name := normalize_value value]> h.

Definition delete (name : string) (h : gmap string string)
  : gmap string string :=
  base.delete (lower name) h.

End Headers.

(** ** AttributeRewriter (index.ts, lines 16-38) *)

(** Line 29, first expression: [^[\w-]+:\/\/.*]. *)
Definition re_scheme : JS.regex :=
  JS.Cat JS.Bol
    (JS.Cat (JS.Plus (JS.Class (fun c => JS.word_char c || Ascii.eqb c "-")%bool))
       (JS.Cat (JS.lit "://") (JS.Star (JS.Class JS.dot)))).

(** Line 29, second expression: [^data:.*]. *)
Definition re_data : JS.regex :=
  JS.Cat JS.Bol (JS.Cat (JS.lit "data:") (JS.Star (JS.Class JS.dot))).

(** Line 34: [^], then group 1 spanning [https?:\/\/] followed by [.*]. *)
Definition re_http : JS.regex :=
  JS.Cat JS.Bol
    (JS.Group 1
       (JS.Cat (JS.lit "http")
          (JS.Cat (JS.Opt (JS.Class (Ascii.eqb "s")))
             (JS.Cat (JS.lit "://") (JS.Star (JS.Class JS.dot)))))).

(** Line 155: [\/], group 1 spanning [https?:], [\/+], and group 2 spanning [.*]. *)
Definition re_route : JS.regex :=
  JS.Cat (JS.lit "/")
    (JS.Cat
       (JS.Group 1
          (JS.Cat (JS.lit "http")
             (JS.Cat (JS.Opt (JS.Class (Ascii.eqb "s"))) (JS.lit ":"))))
       (JS.Cat (JS.Plus (JS.Class (Ascii.eqb "/")))
          (JS.Group 2 (JS.Star (JS.Class JS.dot))))).

Record AttributeRewriter := mkAttributeRewriter {
  attribute : string;
  proxy_url : URL;
  upstream_url : URL
}.

(** ** Requests, responses and handlers of the runtime *)

Record Response := mkResponse {
  status : nat;
  statusText : string;
  headers : gmap string string;
  body : string
}.

Record Request := mkRequest {
  url : string;
  method : string;
  request_headers : gmap string string
}.

(** A call of the platform's [fetch]. *)
Record FetchCall := mkFetchCall {
  fetch_url : string;
  fetch_method : string;
  fetch_headers : gmap string string
}.

(** What a handler registered on the HTML rewriter is. *)
Inductive Handler :=
| OnElement (h : AttributeRewriter)
| OnTextChunks (h : TextRewriter).

(** Optional chaining in a condition: [o?.test(...)] is falsy when [o] is
    null. *)
Definition optional_test (o : option string) (test : string -> bool) : bool :=
  match o with
  | Some s => test s
  | None => false
  end.

Section Worker.

(** The runtime the worker runs on: the URL parser ([None] when the
    constructor throws), the [protocol] setter, the network ([None] when
    [fetch] rejects), the streaming HTML rewriter, and the status text the
    runtime gives a response that is constructed without one. *)
Variable URL_parse : string -> option URL.
Variable URL_resolve : string -> string -> option URL.
Variable URL_set_protocol : URL -> string -> URL.
Variable upstream_fetch : FetchCall -> option Response.
Variable HTML_transform : list (string * Handler) -> string -> string.
Variable default_statusText : nat -> string.

(** [AttributeRewriter.element]: the attributes of the element after the
    call, or [None] when the URL constructor throws. *)
Definition onElement (this : AttributeRewriter) (element : gmap string string)
  : option (gmap string string) :=
  match element !! attribute this with
  | Some attr =>
      if truthy attr then
        let resolved :=
          if (negb (bool_decide (is_Some (JS.match_ re_scheme 0 attr)))
              && negb (bool_decide (is_Some (JS.match_ re_data 0 attr))))%bool
          then href <$> URL_resolve attr (origin (upstream_url this))
          else Some attr in
        match resolved with
        | Some attr' =>
            Some (<[attribute this :=
                      JS.replace re_http 1 (origin (proxy_url this) +:+ "/$1") attr']>
                    element)
        | None => None
        end
      else Some element
  | None => Some element
  end.

(** [new Response(body, init)] with a string body: the status, status text
    and headers of [init], and a [content-type] added when the headers have
    none. *)
Definition Response_of_string (body : string) (status : nat)
    (statusText : string) (headers : gmap string string) : Response :=
  mkResponse status statusText
    (if Headers.has "content-type" headers then headers
     else Headers.set "content-type" "text/plain;charset=UTF-8" headers)
    body.

(** ** ProxyOrchestrator: [proxy] (index.ts, lines 75-134)

    The result is the list of [fetch] calls made and the response the promise
    resolves to ([None] when it rejects).  The [body] of the upstream
    response stands for the text that [text()] yields once the body is
    read. *)
Definition proxy (request : Request) (upstreamURL : URL)
  : list FetchCall * option Response :=
  match URL_parse (url request) with
  | None => ([], None)
  | Some proxyURL =>
      let proxyHeaders :=
        Headers.set "Referer" (origin proxyURL)
          (Headers.set "Host" (origin upstreamURL) (request_headers request)) in
      let call := mkFetchCall (href upstreamURL) (method request) proxyHeaders in
      match upstream_fetch call with
      | None => ([call], None)
      | Some upstreamResponse =>
          let h0 := headers upstreamResponse in
          let h1 := Headers.set "access-control-allow-origin" "*" h0 in
          let h2 := Headers.set "access-control-allow-credentials" "true" h1 in
          let h3 := Headers.delete "content-security-policy" h2 in
          let h4 := Headers.delete "content-security-policy-report-only" h3 in
          let h5 := Headers.delete "clear-site-data" h4 in
          let h6 := Headers.set "X-Forwarded-Host" (origin proxyURL) h5 in
          let h7 := Headers.set "X-Forwarded-Proto" (protocol proxyURL) h6 in
          let h8 :=
            Headers.set "X-Forwarded-For"
              (match Headers.get "CF-Connecting-IP" (request_headers request) with
               | Some ip => if truthy ip then ip else ""
               | None => ""
               end) h7 in
          let contentType := Headers.get "content-type" h8 in
          let rewriteURLs := rewrite proxyURL upstreamURL in
          let responseHeaders :=
            if Headers.has "link" h8
            then Headers.set "link" (rewriteURLs (Headers.get "link" h8)) h8
            else h8 in
          if optional_test contentType (JS.includes "text/html") then
            let rewriter :=
              [ ("form", OnElement (mkAttributeRewriter "action" proxyURL upstreamURL));
                ("img", OnElement (mkAttributeRewriter "src" proxyURL upstreamURL));
                ("img", OnElement (mkAttributeRewriter "srcset" proxyURL upstreamURL));
                ("link", OnElement (mkAttributeRewriter "href" proxyURL upstreamURL));
                ("a", OnElement (mkAttributeRewriter "href" proxyURL upstreamURL));
                ("script", OnElement (mkAttributeRewriter "src" proxyURL upstreamURL));
                ("script",
                  OnTextChunks (newTextRewriter (fun s => rewriteURLs (Some s))));
                ("style",
                  OnTextChunks (newTextRewriter (fun s => rewriteURLs (Some s)))) ] in
            let isHtml :=
              JS.includes "text/html"
                (match Headers.get "content-type" responseHeaders with
                 | Some ct => ct
                 | None => "null"
                 end) in
            let responseBody :=
              if isHtml then HTML_transform rewriter (body upstreamResponse)
              else body upstreamResponse in
            let responseStatus := status upstreamResponse in
            ([call],
             Some (mkResponse responseStatus (default_statusText responseStatus)
                     responseHeaders responseBody))
          else if (optional_test contentType (JS.startsWith "text/")
                   || optional_test contentType (JS.startsWith "application/x-javascript")
                   || optional_test contentType (JS.startsWith "application/javascript"))%bool then
            let body_ := rewriteURLs (Some (body upstreamResponse)) in
            ([call],
             Some (Response_of_string body_ (status upstreamResponse)
                     (statusText upstreamResponse) (headers upstreamResponse)))
          else
            ([call], Some upstreamResponse)
      end
  end.

(** ** The request handler: [fetch] (index.ts, lines 136-165) *)
Definition fetch (request : Request) : list FetchCall * option Response :=
  match URL_parse (url request) with
  | None => ([], None)
  | Some proxyURL =>
      let path := JS.substr (String.length (origin proxyURL)) (href proxyURL) in
      if String.eqb (protocol proxyURL) "http:" then
        let proxyURL' := URL_set_protocol proxyURL "https:" in
        let headers :=
          Headers.set "location" (href proxyURL')
            (Headers.set "Strict-Transport-Security"
               "max-age=31536000; includeSubDomains; preload" ∅) in
        ([], Some (Response_of_string "http not allowed" 301
                     (default_statusText 301) headers))
      else
        let matchArray := JS.match_ re_route 2 path in
        let upstream :=
          match matchArray with
          | Some m =>
              JS.interpolate (JS.captures m !! 0%nat) +:+ "//"
                +:+ JS.interpolate (JS.captures m !! 1%nat)
          | None => ""
          end in
        match URL_parse upstream with
        | Some upstreamURL => proxy request upstreamURL
        | None =>
            ([], Some (Response_of_string "What is that URL?" 400
                         (default_statusText 400) ∅))
        end
  end.

End Worker.

(** The upstream string the handler extracts from the request path. *)
Definition upstream_of (proxyURL : URL) : string :=
  match
    JS.match_ re_route 2
      (JS.substr (String.length (origin proxyURL)) (href proxyURL))
  with
  | Some m =>
      JS.interpolate (JS.captures m !! 0%nat) +:+ "//"
        +:+ JS.interpolate (JS.captures m !! 1%nat)
  | None => ""
  end.

(** ** The rules in the words of the specification

    These definitions follow the specification's text, not the source; the
    theorems below compare them with the embedding of the source. *)
Module Spec.

Fixpoint has_char (c : ascii) (s : string) : bool :=
  match s with
  | EmptyString => false
  | String c' s' => (Ascii.eqb c c' || has_char c s')%bool
  end.

(** Literal global replacement: every occurrence of [pattern], found left to
    right without overlap, is replaced by the text [replacement] itself. *)
Fixpoint replace_every_scan (pattern replacement : string)
    (skip : nat) (rest : string) : string :=
  match rest with
  | EmptyString => EmptyString
  | String c rest' =>
      match skip with
      | S k => replace_every_scan pattern replacement k rest'
      | O =>
          if String.prefix pattern rest then
            replacement
              +:+ replace_every_scan pattern replacement
                    (String.length pattern - 1) rest'
          else String c (replace_every_scan pattern replacement 0 rest')
      end
  end.

Fixpoint insert_everywhere (replacement rest : string) : string :=
  replacement +:+
  match rest with
  | EmptyString => EmptyString
  | String c rest' => String c (insert_everywhere replacement rest')
  end.

Definition replace_every (pattern replacement s : string) : string :=
  match pattern with
  | EmptyString => insert_everywhere replacement s
  | _ => replace_every_scan pattern replacement 0 s
  end.

(** Every [/] escaped as [\/]. *)
Fixpoint escape_slashes (s : string) : string :=
  match s with
  | EmptyString => EmptyString
  | String c s' =>
      if Ascii.eqb c "/" then String "\" (String "/" (escape_slashes s'))
      else String c (escape_slashes s')
  end.

(** The delimiters of rule 1: a single quote, a double quote, a tag-open. *)
Definition delimiter (c : ascii) : bool :=
  (Ascii.eqb c "'" || Ascii.eqb c "034" || Ascii.eqb c "<")%bool.

(** Rule 1: wherever a delimiter is followed by [/], the public origin is
    inserted immediately after the delimiter. *)
Fixpoint anchor_relative (publicOrigin s : string) : string :=
  match s with
  | EmptyString => EmptyString
  | String c s' =>
      String c
        (if (delimiter c && String.prefix "/" s')%bool
         then publicOrigin +:+ anchor_relative publicOrigin s'
         else anchor_relative publicOrigin s')
  end.

(** One marker of rule 1 alone: [d/] becomes [d], the public origin and
    [/]. *)
Definition anchor_after (d : ascii) (publicOrigin s : string) : string :=
  replace_every (String d "/") (String d (publicOrigin +:+ "/")) s.

Definition rule1 (publicURL : URL) : string -> string :=
  anchor_relative (origin publicURL).

Definition rule2 (upstreamURL publicURL : URL) : string -> string :=
  replace_every (escape_slashes (origin upstreamURL))
    (escape_slashes (origin publicURL +:+ pathname publicURL)).

Definition rule3 (upstreamURL publicURL : URL) : string -> string :=
  replace_every (origin upstreamURL) (origin publicURL).

Definition rule4 (upstreamURL publicURL : URL) : string -> string :=
  replace_every ("//" +:+ hostPort upstreamURL +:+ pathname upstreamURL)
    ("//" +:+ hostPort publicURL +:+ pathname publicURL +:+ "/").

Definition rule5 (upstreamURL publicURL : URL) : string -> string :=
  replace_every (hostname upstreamURL) (hostPort publicURL).

(** The five rules, each over the output of the previous one. *)
Definition RuleEngine (upstreamURL publicURL : URL) (text : string) : string :=
  rule5 upstreamURL publicURL
    (rule4 upstreamURL publicURL
       (rule3 upstreamURL publicURL
          (rule2 upstreamURL publicURL (rule1 publicURL text)))).

(** The text holds one of the markers of rule 1. *)
Definition has_marker (text : string) : bool :=
  (JS.includes "'/" text || JS.includes (dquote +:+ "/") text
   || JS.includes "</" text)%bool.

(** The text holds the upstream origin, plain or with its slashes escaped, or
    the upstream hostname. *)
Definition mentions (upstreamURL : URL) (text : string) : bool :=
  (JS.includes (origin upstreamURL) text
   || JS.includes (escape_slashes (origin upstreamURL)) text
   || JS.includes (hostname upstreamURL) text)%bool.

(** The public URL has no [$] in the parts the replacements are built from,
    and its origin holds no double quote and no [<]. *)
Definition plain_public (publicURL : URL) : bool :=
  (negb (has_char "$" (origin publicURL))
   && negb (has_char "$" (hostname publicURL))
   && negb (has_char "$" (port publicURL))
   && negb (has_char "$" (pathname publicURL))
   && negb (has_char "034" (origin publicURL))
   && negb (has_char "<" (origin publicURL)))%bool.

(** AttributeRewriter: what counts as a [scheme://] prefix, a [data:] URI and
    an [http(s)://] value. *)
Definition scheme_char (c : ascii) : bool :=
  (JS.word_char c || Ascii.eqb c "-")%bool.

Fixpoint skip_while (p : ascii -> bool) (s : string) : string :=
  match s with
  | String c s' => if p c then skip_while p s' else s
  | EmptyString => EmptyString
  end.

(** The number of leading code units that satisfy [p]. *)
Fixpoint run_length (p : ascii -> bool) (s : string) : nat :=
  match s with
  | String c s' => if p c then S (run_length p s') else 0
  | EmptyString => 0
  end.

Definition scheme_prefixed (value : string) : bool :=
  match value with
  | String c rest =>
      (scheme_char c && String.prefix "://" (skip_while scheme_char rest))%bool
  | EmptyString => false
  end.

Definition data_uri (value : string) : bool := String.prefix "data:" value.

Definition http_url (value : string) : bool :=
  (String.prefix "http://" value || String.prefix "https://" value)%bool.

(** The value AttributeRewriter writes back for a non-empty attribute value,
    given the resolver of relative references ([None] when the reference
    cannot be resolved). *)
Definition rewritten_attribute (resolve : string -> string -> option string)
    (proxyOrigin upstreamOrigin value : string) : option string :=
  let absolute :=
    if (negb (scheme_prefixed value) && negb (data_uri value))%bool
    then resolve value upstreamOrigin
    else Some value in
  (fun absoluteURL =>
     if http_url absoluteURL then proxyOrigin +:+ "/" +:+ absoluteURL
     else absoluteURL) <$> absolute.

(** The [fetch] call the orchestrator is to make: the upstream URL, the
    method of the request, and its headers with [Host] and [Referer]
    overridden. *)
Definition upstream_call (request : Request) (proxyURL upstreamURL : URL)
  : FetchCall :=
  mkFetchCall (href upstreamURL) (method request)
    (Headers.set "Referer" (origin proxyURL)
       (Headers.set "Host" (origin upstreamURL) (request_headers request))).

(** The response header contract. *)
Definition header_contract (h : gmap string string) : Prop :=
  h !! "access-control-allow-origin" = Some "*"
  /\ h !! "access-control-allow-credentials" = Some "true"
  /\ h !! "content-security-policy" = None
  /\ h !! "content-security-policy-report-only" = None
  /\ h !! "clear-site-data" = None
  /\ is_Some (h !! "x-forwarded-host")
  /\ is_Some (h !! "x-forwarded-proto")
  /\ is_Some (h !! "x-forwarded-for").

End Spec.

(** ** The scenario of the specification: upstream [https://example.com],
    proxy [https://proxy.test] *)
Module Scenario.

Definition upstreamURL : URL :=
  mkURL "https://example.com/" "https://example.com" "https:"
    "example.com" "" "/".

Definition proxyURL : URL :=
  mkURL "https://proxy.test/https://example.com/" "https://proxy.test"
    "https:" "proxy.test" "" "/https://example.com/".

Definition publicURL : URL :=
  mkURL "https://proxy.test/" "https://proxy.test" "https:" "proxy.test" "" "/".

Definition plainURL : URL :=
  mkURL "http://proxy.test/nowhere" "http://proxy.test" "http:"
    "proxy.test" "" "/nowhere".

Definition secureURL : URL :=
  mkURL "https://proxy.test/nowhere" "https://proxy.test" "https:"
    "proxy.test" "" "/nowhere".

(** The URL constructor on the URLs of the scenario. *)
Definition URL_parse (s : string) : option URL :=
  if String.eqb s (href upstreamURL) then Some upstreamURL
  else if String.eqb s (href proxyURL) then Some proxyURL
  else if String.eqb s (href plainURL) then Some plainURL
  else if String.eqb s (href secureURL) then Some secureURL
  else None.

(** Resolution of the root-relative reference of the scenario. *)
Definition URL_resolve (s base : string) : option URL :=
  if (String.eqb s "/logo.png" && String.eqb base "https://example.com")%bool
  then Some (mkURL "https://example.com/logo.png" "https://example.com"
               "https:" "example.com" "" "/logo.png")
  else None.

Definition URL_set_protocol (u : URL) (p : string) : URL :=
  mkURL (p +:+ JS.substr (String.length (protocol u)) (href u))
    (p +:+ JS.substr (String.length (protocol u)) (origin u))
    p (hostname u) (port u) (pathname u).

(** An upstream that answers every request with [response]. *)
Definition upstream_fetch (response : Response) (_ : FetchCall)
  : option Response := Some response.

Definition HTML_transform (_ : list (string * Handler)) (body : string)
  : string := body.

(** The reason phrases a runtime gives the statuses of the scenario. *)
Definition default_statusText (status : nat) : string :=
  if (status =? 200)%nat then "OK"
  else if (status =? 301)%nat then "Moved Permanently"
  else if (status =? 400)%nat then "Bad Request"
  else "".

Definition request : Request :=
  mkRequest (href proxyURL) "GET" ∅.

Definition html_response : Response :=
  mkResponse 200 "OK"
    (<["link" := "</style.css>; rel=preload"]>
       (<["content-type" := "text/html; charset=utf-8"]> ∅))
    "<img src=/logo.png>".

Definition css_response : Response :=
  mkResponse 200 "OK" (<["content-type" := "text/css"]> ∅) "body{}".

Definition bare_response : Response :=
  mkResponse 200 "OK" ∅ "bytes".

End Scenario.

(** ** Vocabulary of the further properties *)
Module Route.

Definition slash : ascii -> bool := Ascii.eqb "/".

(** [n] slashes. *)
Fixpoint slashes (n : nat) : string :=
  match n with
  | O => EmptyString
  | S n' => String "/" (slashes n')
  end.

(** No line terminator in the text. *)
Definition line_free (s : string) : bool :=
  (negb (Spec.has_char "010" s) && negb (Spec.has_char "013" s))%bool.

(** What the expression of line 155 captures when it matches at the start of
    [rest]: the scheme with its colon, then, after one or more slashes, the
    text up to the first line terminator.  [after] is what follows the
    colon. *)
Definition tail (scheme after : string) : option (string * string) :=
  if String.prefix "/" after then
    let target := Spec.skip_while slash after in
    Some (scheme, JS.take (Spec.run_length JS.dot target) target)
  else None.

Definition at_start (rest : string) : option (string * string) :=
  if String.prefix "/https:" rest then tail "https:" (JS.substr 7 rest)
  else if String.prefix "/http:" rest then tail "http:" (JS.substr 6 rest)
  else None.

(** The captures of the first match, scanning from the start of [rest]. *)
Fixpoint first (rest : string) : option (string * string) :=
  match at_start rest with
  | Some r => Some r
  | None =>
      match rest with
      | EmptyString => None
      | String _ rest' => first rest'
      end
  end.

(** Template-literal assembly of line 156. *)
Definition assemble (r : option (string * string)) : string :=
  match r with
  | Some (scheme, target) => scheme +:+ "//" +:+ target
  | None => ""
  end.

End Route.

(** Further inputs of the scenario. *)
Module Cases.

(** A network that is down. *)
Definition unreachable (_ : FetchCall) : option Response := None.

Definition json_response : Response :=
  mkResponse 404 "Not Found"
    (<["content-type" := "application/json"]> (<["etag" := "abc"]> ∅))
    "{}".


Definition page_request : Request :=
  mkRequest (href Scenario.proxyURL) "POST"
    (<["cf-connecting-ip" := "203.0.113.7"]> (<["accept" := "*/*"]> ∅)).

(** The URL the rewritten [href] of the scenario leads to. *)
Definition followURL : URL :=
  mkURL "https://proxy.test/https://example.com/page" "https://proxy.test"
    "https:" "proxy.test" "" "/https://example.com/page".

(** The URL constructor on the URLs of the followed link. *)
Definition URL_parse (s : string) : option URL :=
  if String.eqb s "https://example.com/page" then
    Some (mkURL "https://example.com/page" "https://example.com" "https:"
            "example.com" "" "/page")
  else if String.eqb s (href followURL) then Some followURL
  else None.

End Cases.

(** * Properties *)

#[local] Arguments String.append !s1 s2 : simpl nomatch.

(** ** Strings *)

Lemma append_empty_r (s : string) : s +:+ "" = s.
Proof. induction s as [|c s IH]; [reflexivity | simpl; f_equal; exact IH]. Qed.

Lemma append_assoc (s t u : string) : (s +:+ t) +:+ u = s +:+ t +:+ u.
Proof. induction s as [|c s IH]; [reflexivity | simpl; f_equal; exact IH]. Qed.

Lemma take_substr (n : nat) (s : string) : JS.take n s +:+ JS.substr n s = s.
Proof.
  revert s; induction n as [|n IH]; intros [|c s]; simpl; try reflexivity.
  f_equal; apply IH.
Qed.

Lemma take_length (n : nat) (s : string) :
  JS.take (String.length (JS.take n s)) s = JS.take n s.
Proof.
  revert s; induction n as [|n IH]; intros [|c s]; simpl; try reflexivity.
  f_equal; apply IH.
Qed.

Lemma prefix_empty (s : string) : String.prefix "" s = true.
Proof. now destruct s. Qed.

Lemma prefix_append (p s : string) : String.prefix p (p +:+ s) = true.
Proof.
  induction p as [|c p IH]; simpl; [now destruct s|].
  destruct (ascii_dec c c); [exact IH | congruence].
Qed.

Lemma prefix_split (p s : string) :
  String.prefix p s = true -> s = p +:+ JS.substr (String.length p) s.
Proof.
  revert s; induction p as [|c p IH]; intros s H; simpl; [reflexivity|].
  destruct s as [|c' s]; simpl in H; [discriminate|].
  destruct (ascii_dec c c') as [->|]; [|discriminate].
  simpl; f_equal; now apply IH.
Qed.

Lemma prefix_head (c c' : ascii) (p s : string) :
  c <> c' -> String.prefix (String c p) (String c' s) = false.
Proof. intros Hne; simpl. destruct (ascii_dec c c'); [contradiction | reflexivity]. Qed.

Lemma includes_head (p s : string) :
  JS.includes p s = false -> JS.startsWith p s = false.
Proof. destruct s; simpl; intros H; now apply orb_false_elim in H. Qed.

Lemma includes_tail (p : string) (c : ascii) (s : string) :
  JS.includes p (String c s) = false -> JS.includes p s = false.
Proof. simpl; intros H; now apply orb_false_elim in H. Qed.

(** ** Replacement templates *)

Lemma GetSubstitution_other (matched str : string) (position : nat)
    (captures : list (option string)) (c : ascii) (t : string) :
  c <> "$"%char ->
  JS.GetSubstitution matched str position captures (String c t)
  = String c (JS.GetSubstitution matched str position captures t).
Proof.
  intros Hc. destruct c as [[] [] [] [] [] [] [] []]; try reflexivity.
  now contradiction Hc.
Qed.

Lemma GetSubstitution_plain_prefix (matched str : string) (position : nat)
    (captures : list (option string)) (t1 t2 : string) :
  Spec.has_char "$" t1 = false ->
  JS.GetSubstitution matched str position captures (t1 +:+ t2)
  = t1 +:+ JS.GetSubstitution matched str position captures t2.
Proof.
  induction t1 as [|c t1 IH]; intros H; [reflexivity|].
  cbn [Spec.has_char] in H. apply orb_false_elim in H as [Hc H].
  change (String c t1 +:+ t2) with (String c (t1 +:+ t2)).
  rewrite GetSubstitution_other.
  - rewrite IH by exact H. reflexivity.
  - intros ->. discriminate Hc.
Qed.

Lemma GetSubstitution_plain (matched str : string) (position : nat)
    (captures : list (option string)) (t : string) :
  Spec.has_char "$" t = false ->
  JS.GetSubstitution matched str position captures t = t.
Proof.
  intros H. rewrite <- (append_empty_r t) at 1.
  rewrite GetSubstitution_plain_prefix by exact H.
  apply append_empty_r.
Qed.

Lemma GetSubstitution_group1 (matched str : string) (position : nat)
    (group : string) :
  JS.GetSubstitution matched str position [Some group] "/$1"
  = String "/" group.
Proof.
  cbn [JS.GetSubstitution].
  change (JS.is_digit "1") with true. change (JS.digit_val "1") with 1.
  cbn [JS.capture nth_error]. now rewrite append_empty_r.
Qed.

(** The primitives on small inputs. *)

Example replaceAll_patterns :
  JS.replaceAll "b" "[$$|$&|$`|$'|$1]" "abc" = "a[$|b|a|c|$1]c".
Proof. reflexivity. Qed.

Example replaceAll_left_to_right : JS.replaceAll "aa" "b" "aaaaa" = "bba".
Proof. reflexivity. Qed.

Example replaceAll_empty_search : JS.replaceAll "" "-" "abc" = "-a-b-c-".
Proof. reflexivity. Qed.

Example replace_numbered_group :
  JS.replace re_http 1 "<$1|$01|$10|$2>" "see http://a/b"
  = "see http://a/b"
  /\ JS.replace re_http 1 "<$1|$01|$10|$2>" "http://a/b"
     = "<http://a/b|http://a/b|http://a/b0|$2>".
Proof. split; reflexivity. Qed.

Example route_collapsed_slashes :
  upstream_of
    (mkURL "https://proxy.test/https:/example.com/a?b" "https://proxy.test"
       "https:" "proxy.test" "" "/https:/example.com/a")
  = "https://example.com/a?b".
Proof. reflexivity. Qed.

(** ** RuleEngine *)

(** C7. An absent text yields the empty string, for every origin pair; the
    function is total, so no error is raised. *)
Theorem rewrite_absent (originURL publicURL : URL) :
  rewrite originURL publicURL None = "".
Proof. reflexivity. Qed.

Lemma includes_iff (p s : string) :
  JS.includes p s = true <-> exists u v, s = u +:+ p +:+ v.
Proof.
  split.
  - induction s as [|c s IH]; cbn [JS.includes]; unfold JS.startsWith; intros H.
    + rewrite orb_false_r in H. apply prefix_split in H.
      exists "", (JS.substr (String.length p) ""). exact H.
    + apply orb_true_iff in H as [H|H].
      * apply prefix_split in H.
        exists "", (JS.substr (String.length p) (String c s)). exact H.
      * destruct (IH H) as (u & v & ->). exists (String c u), v. reflexivity.
  - intros (u & v & ->). induction u as [|c u IH].
    + assert (H : JS.startsWith p (p +:+ v) = true) by apply prefix_append.
      change ("" +:+ p +:+ v) with (p +:+ v).
      destruct (p +:+ v); cbn [JS.includes]; now rewrite H.
    + change (String c u +:+ p +:+ v) with (String c (u +:+ p +:+ v)).
      cbn [JS.includes]. rewrite IH. apply orb_true_r.
Qed.

(** A text without the part has none of the whole. *)
Lemma includes_within (a h b t : string) :
  JS.includes h t = false -> JS.includes (a +:+ h +:+ b) t = false.
Proof.
  intros Hh. destruct (JS.includes (a +:+ h +:+ b) t) eqn:E; [|reflexivity].
  apply includes_iff in E as (u & v & ->).
  assert (JS.includes h (u +:+ (a +:+ h +:+ b) +:+ v) = true) as Hin.
  { apply includes_iff. exists (u +:+ a), (b +:+ v).
    now rewrite !append_assoc. }
  congruence.
Qed.

Lemma includes_empty (s : string) : JS.includes "" s = true.
Proof. destruct s; reflexivity. Qed.

Lemma replaceAll_scan_absent (p r str : string) (pos : nat) (rest : string) :
  JS.includes p rest = false -> JS.replaceAll_scan p r str 0 pos rest = rest.
Proof.
  revert pos; induction rest as [|c rest IH]; intros pos H; [reflexivity|].
  cbn [JS.replaceAll_scan]. rewrite (includes_head _ _ H).
  f_equal. apply IH. exact (includes_tail _ _ _ H).
Qed.

(** Replacing a string that does not occur changes nothing. *)
Lemma replaceAll_absent (p r s : string) :
  JS.includes p s = false -> JS.replaceAll p r s = s.
Proof.
  intros H. destruct p as [|c p].
  - now rewrite includes_empty in H.
  - apply replaceAll_scan_absent, H.
Qed.

Lemma replaceAll_scan_slash (str : string) (pos : nat) (rest : string) :
  JS.replaceAll_scan "/" "\/" str 0 pos rest = Spec.escape_slashes rest.
Proof.
  revert pos; induction rest as [|c rest IH]; intros pos; [reflexivity|].
  cbn [JS.replaceAll_scan Spec.escape_slashes JS.startsWith String.prefix].
  destruct (ascii_dec "/" c) as [<-|Hne].
  - assert (String.prefix "" rest = true) as -> by now destruct rest.
    simpl. now rewrite IH.
  - destruct (Ascii.eqb_spec c "/") as [->|_]; [contradiction|].
    now rewrite IH.
Qed.

(** The escaping of line 59 and 60 is the escaping of every slash. *)
Lemma replaceAll_slash (s : string) :
  JS.replaceAll "/" "\/" s = Spec.escape_slashes s.
Proof. apply replaceAll_scan_slash. Qed.

(** C5 (amended). A text with none of the markers ['/], [dquote /], [</] and
    with no occurrence of the upstream origin (plain or with its slashes
    escaped) or of the upstream hostname is returned unchanged. *)
Theorem rewrite_unrelated (upstreamURL publicURL : URL) (text : string) :
  Spec.has_marker text = false ->
  Spec.mentions upstreamURL text = false ->
  rewrite upstreamURL publicURL (Some text) = text.
Proof.
  unfold Spec.has_marker, Spec.mentions. intros Hm Hu.
  apply orb_false_elim in Hm as [Hm Hlt]. apply orb_false_elim in Hm as [Hq Hdq].
  apply orb_false_elim in Hu as [Hu Hhost]. apply orb_false_elim in Hu as [Hor Hesc].
  unfold rewrite. cbv zeta.
  rewrite (replaceAll_absent _ _ _ Hq), (replaceAll_absent _ _ _ Hdq),
    (replaceAll_absent _ _ _ Hlt).
  rewrite (replaceAll_slash (origin upstreamURL)), (replaceAll_absent _ _ _ Hesc).
  rewrite (replaceAll_absent _ _ _ Hor).
  rewrite (replaceAll_absent ("//" +:+ _)).
  - apply replaceAll_absent, Hhost.
  - unfold hostPort. destruct (truthy (port upstreamURL)).
    + rewrite append_assoc. apply includes_within, Hhost.
    + apply includes_within, Hhost.
Qed.

Lemma rewrite_unrelated_witness :
  Spec.has_marker "body { margin: 0 }" = false
  /\ Spec.mentions Scenario.upstreamURL "body { margin: 0 }" = false
  /\ rewrite Scenario.upstreamURL Scenario.publicURL (Some "body { margin: 0 }")
     = "body { margin: 0 }".
Proof.
  split; [reflexivity|]. split; [reflexivity|].
  apply rewrite_unrelated; reflexivity.
Defined.

(** C5 as stated fails: a text that mentions neither the upstream origin nor
    the upstream hostname is still rewritten by rule 1. *)
Lemma rewrite_unrelated_counterexample :
  ~ (forall (upstreamURL publicURL : URL) (text : string),
       JS.includes (origin upstreamURL) text = false ->
       JS.includes (hostname upstreamURL) text = false ->
       rewrite upstreamURL publicURL (Some text) = text).
Proof.
  intros H.
  specialize (H Scenario.upstreamURL Scenario.publicURL "'/a/b'" eq_refl eq_refl).
  vm_compute in H. discriminate H.
Qed.

(** ** The rule pipeline *)

Lemma replaceAll_scan_literal (p r str : string) (skip pos : nat) (rest : string) :
  Spec.has_char "$" r = false ->
  JS.replaceAll_scan p r str skip pos rest = Spec.replace_every_scan p r skip rest.
Proof.
  intros Hr. revert skip pos; induction rest as [|c rest IH]; intros skip pos;
    [reflexivity|].
  cbn [JS.replaceAll_scan Spec.replace_every_scan]. unfold JS.startsWith.
  destruct skip; [|apply IH].
  destruct (String.prefix p (String c rest)).
  - now rewrite GetSubstitution_plain, IH.
  - now rewrite IH.
Qed.

Lemma replaceAll_empty_literal (r str : string) (pos : nat) (rest : string) :
  Spec.has_char "$" r = false ->
  JS.replaceAll_empty r str pos rest = Spec.insert_everywhere r rest.
Proof.
  intros Hr. revert pos; induction rest as [|c rest IH]; intros pos;
    cbn [JS.replaceAll_empty Spec.insert_everywhere];
    rewrite GetSubstitution_plain by exact Hr; [reflexivity|].
  now rewrite IH.
Qed.

(** A replacement without [$] is inserted as it is. *)
Lemma replaceAll_literal (p r s : string) :
  Spec.has_char "$" r = false ->
  JS.replaceAll p r s = Spec.replace_every p r s.
Proof.
  intros Hr. destruct p; cbn [JS.replaceAll Spec.replace_every].
  - now apply replaceAll_empty_literal.
  - now apply replaceAll_scan_literal.
Qed.

Lemma has_char_append (c : ascii) (s t : string) :
  Spec.has_char c (s +:+ t) = (Spec.has_char c s || Spec.has_char c t)%bool.
Proof.
  induction s as [|c' s IH]; [reflexivity|].
  change (String c' s +:+ t) with (String c' (s +:+ t)).
  cbn [Spec.has_char]. now rewrite IH, orb_assoc.
Qed.

Lemma has_char_escape (s : string) :
  Spec.has_char "$" (Spec.escape_slashes s) = Spec.has_char "$" s.
Proof.
  induction s as [|c s IH]; [reflexivity|]. cbn [Spec.escape_slashes].
  destruct (Ascii.eqb_spec c "/") as [->|Hne]; cbn [Spec.has_char];
    rewrite IH; reflexivity.
Qed.

Lemma escape_append (s t : string) :
  Spec.escape_slashes (s +:+ t)
  = Spec.escape_slashes s +:+ Spec.escape_slashes t.
Proof.
  induction s as [|c s IH]; [reflexivity|].
  change (String c s +:+ t) with (String c (s +:+ t)).
  cbn [Spec.escape_slashes]. rewrite IH. now destruct (Ascii.eqb c "/").
Qed.

(** *** Rule 1: three replacements in a row against one pass *)

Section Anchoring.

Variable O : string.

#[local] Abbreviation pass d := (Spec.anchor_after d O).

Lemma pass_match (d : ascii) (s : string) :
  pass d (String d (String "/" s)) = String d (O +:+ "/") +:+ pass d s.
Proof.
  unfold Spec.anchor_after, Spec.replace_every. cbn [Spec.replace_every_scan String.prefix String.length Nat.sub].
  destruct (ascii_dec d d); [|contradiction].
  destruct (ascii_dec "/" "/"); [|contradiction].
  now rewrite prefix_empty.
Qed.

Lemma pass_copy (d c : ascii) (s : string) :
  (Ascii.eqb c d && String.prefix "/" s)%bool = false ->
  pass d (String c s) = String c (pass d s).
Proof.
  intros H. unfold Spec.anchor_after, Spec.replace_every. cbn [Spec.replace_every_scan String.prefix].
  destruct (ascii_dec d c) as [<-|Hne]; [|reflexivity].
  rewrite Ascii.eqb_refl in H. cbn [andb] in H.
  destruct s as [|c' s]; [reflexivity|].
  cbn [String.prefix] in H |- *. destruct (ascii_dec "/" c'); [|reflexivity].
  now rewrite prefix_empty in *.
Qed.

Lemma pass_free (d : ascii) (w s : string) :
  Spec.has_char d w = false -> pass d (w +:+ s) = w +:+ pass d s.
Proof.
  induction w as [|c w IH]; intros H; [reflexivity|].
  cbn [Spec.has_char] in H. apply orb_false_elim in H as [Hc H].
  change (String c w +:+ s) with (String c (w +:+ s)).
  rewrite pass_copy.
  - now rewrite IH.
  - rewrite Ascii.eqb_sym, Hc. reflexivity.
Qed.

Lemma pass_slash_head (d : ascii) (s : string) :
  d <> "/"%char -> String.prefix "/" (pass d s) = String.prefix "/" s.
Proof.
  intros Hd. destruct s as [|c s]; [reflexivity|].
  destruct (Ascii.eqb c d && String.prefix "/" s)%bool eqn:E.
  - apply andb_prop in E as [Hc Hs]. apply Ascii.eqb_eq in Hc as ->.
    destruct s as [|c' s]; [discriminate|].
    cbn [String.prefix] in Hs. destruct (ascii_dec "/" c') as [<-|]; [|discriminate].
    rewrite pass_match.
    change (String d (O +:+ "/") +:+ pass d s)
      with (String d ((O +:+ "/") +:+ pass d s)).
    cbn [String.prefix]. now destruct (ascii_dec "/" d); [congruence|].
  - rewrite pass_copy by exact E. cbn [String.prefix].
    destruct (ascii_dec "/" c); [now rewrite !prefix_empty | reflexivity].
Qed.

Lemma anchor_match (d : ascii) (s : string) :
  Spec.delimiter d = true ->
  Spec.anchor_relative O (String d (String "/" s))
  = String d (O +:+ "/") +:+ Spec.anchor_relative O s.
Proof.
  intros Hd. cbn [Spec.anchor_relative String.prefix]. rewrite Hd.
  destruct (ascii_dec "/" "/"); [|contradiction]. rewrite prefix_empty.
  change (Spec.delimiter "/") with false. cbn [andb].
  change (String d (O +:+ "/") +:+ Spec.anchor_relative O s)
    with (String d ((O +:+ "/") +:+ Spec.anchor_relative O s)).
  now rewrite append_assoc.
Qed.

Lemma prefix_slash (s : string) :
  String.prefix "/" s = true -> exists s', s = String "/" s'.
Proof.
  destruct s as [|c s]; [discriminate|]. cbn [String.prefix].
  destruct (ascii_dec "/" c) as [<-|]; [|discriminate]. now exists s.
Qed.

Lemma delimiter_cases (c : ascii) :
  Spec.delimiter c = true -> c = "'"%char \/ c = "034"%char \/ c = "<"%char.
Proof.
  unfold Spec.delimiter. intros H.
  apply orb_prop in H as [H|H]; [apply orb_prop in H as [H|H]|];
    apply Ascii.eqb_eq in H; auto.
Qed.

(** The three replacements of lines 54 to 56, one after the other, insert the
    origin after every delimiter that is followed by a slash, provided the
    origin itself holds no double quote and no [<]. *)
Lemma passes_anchor (s : string) :
  Spec.has_char "034" O = false ->
  Spec.has_char "<" O = false ->
  pass "<" (pass "034" (pass "'" s)) = Spec.anchor_relative O s.
Proof.
  intros Hq Hlt.
  assert (Hw : forall d d', d <> d' -> d' <> "/"%char ->
            Spec.has_char d' O = false ->
            Spec.has_char d' (String d (O +:+ "/")) = false).
  { intros d d' Hdd Hd' HO. cbn [Spec.has_char].
    rewrite has_char_append, HO. cbn [Spec.has_char orb].
    destruct (Ascii.eqb_spec d' d); [congruence|].
    destruct (Ascii.eqb_spec d' "/"); [congruence|]. reflexivity. }
  remember (String.length s) as n eqn:Hn.
  assert (Hlen : String.length s <= n) by lia. clear Hn.
  revert s Hlen. induction n as [|n IH]; intros s Hlen.
  - destruct s; [reflexivity | simpl in Hlen; lia].
  - destruct s as [|c s]; [reflexivity|].
    destruct (Spec.delimiter c && String.prefix "/" s)%bool eqn:E.
    + apply andb_prop in E as [Hc Hs]. apply prefix_slash in Hs as [s' ->].
      rewrite (anchor_match _ _ Hc).
      assert (Hs' : String.length s' <= n) by (simpl in Hlen; lia).
      destruct (delimiter_cases _ Hc) as [->|[->| ->]].
      * rewrite pass_match.
        rewrite (pass_free "034") by (apply Hw; [discriminate..|exact Hq]).
        rewrite (pass_free "<") by (apply Hw; [discriminate..|exact Hlt]).
        now rewrite IH.
      * rewrite !(pass_copy "'") by reflexivity.
        rewrite pass_match.
        rewrite (pass_free "<") by (apply Hw; [discriminate..|exact Hlt]).
        now rewrite IH.
      * rewrite !(pass_copy "'") by reflexivity.
        rewrite !(pass_copy "034") by reflexivity.
        rewrite pass_match. now rewrite IH.
    + cbn [Spec.anchor_relative]. rewrite E.
      assert (Hcopy : forall d, Spec.delimiter d = true ->
                (Ascii.eqb c d && String.prefix "/" s)%bool = false).
      { intros d Hd. destruct (Ascii.eqb_spec c d) as [->|]; [|reflexivity].
        now rewrite Hd in E. }
      rewrite (pass_copy "'") by (apply Hcopy; reflexivity).
      rewrite (pass_copy "034")
        by (rewrite pass_slash_head by discriminate; apply Hcopy; reflexivity).
      rewrite (pass_copy "<")
        by (rewrite !pass_slash_head by discriminate; apply Hcopy; reflexivity).
      rewrite IH by (simpl in Hlen; lia). reflexivity.
Qed.

End Anchoring.

Lemma has_char_hostPort (u : URL) :
  Spec.has_char "$" (hostname u) = false ->
  Spec.has_char "$" (port u) = false ->
  Spec.has_char "$" (hostPort u) = false.
Proof.
  intros Hh Hp. unfold hostPort. destruct (truthy (port u)); [|exact Hh].
  now rewrite !has_char_append, Hh, Hp.
Qed.

(** For a public URL without [$] in its origin, host, port and path, and
    without a double quote or [<] in its origin, [rewrite] is the five rules
    of the specification applied in order, each to the output of the one
    before. *)
Theorem rewrite_refines_rules (upstreamURL publicURL : URL) (text : string) :
  Spec.plain_public publicURL = true ->
  rewrite upstreamURL publicURL (Some text)
  = Spec.RuleEngine upstreamURL publicURL text.
Proof.
  unfold Spec.plain_public. intros H.
  repeat (apply andb_prop in H as [H ?]).
  repeat match goal with
         | H : negb _ = true |- _ => apply negb_true_iff in H
         end.
  assert (Hhp : Spec.has_char "$" (hostPort publicURL) = false)
    by now apply has_char_hostPort.
  unfold rewrite, Spec.RuleEngine, Spec.rule1, Spec.rule2, Spec.rule3,
    Spec.rule4, Spec.rule5. cbv zeta.
  rewrite <- passes_anchor by assumption.
  rewrite !replaceAll_slash, <- escape_append.
  rewrite (replaceAll_literal "'/"), (replaceAll_literal (dquote +:+ "/")),
    (replaceAll_literal "</"), (replaceAll_literal (Spec.escape_slashes _)),
    (replaceAll_literal (origin upstreamURL)),
    (replaceAll_literal ("//" +:+ _)),
    (replaceAll_literal (hostname upstreamURL));
    rewrite ?has_char_escape, ?has_char_append;
    repeat match goal with
           | H : Spec.has_char _ _ = false |- _ => rewrite H
           end;
    reflexivity.
Qed.

(** C1. With a public URL whose path is [/a$$b], the replacement of rule 4
    is not inserted as it is: [replaceAll] reads [$$] in the replacement
    string as an escaped [$], so the text [//proxy.test/] becomes
    [//example.com/a$b/] where the rule says [//example.com/a$$b/]. *)
Theorem rewrite_expands_dollar_patterns :
  rewrite Scenario.publicURL
    (mkURL "https://example.com/a$$b" "https://example.com" "https:"
       "example.com" "" "/a$$b")
    (Some "//proxy.test/")
  = "//example.com/a$b/"
  /\ Spec.RuleEngine Scenario.publicURL
       (mkURL "https://example.com/a$$b" "https://example.com" "https:"
          "example.com" "" "/a$$b")
       "//proxy.test/"
     = "//example.com/a$$b/".
Proof. split; vm_compute; reflexivity. Qed.

(** ** Regular expressions of the source *)

Section Matcher.

Context {R : Type}.
Implicit Types (k : nat -> string -> list (option string) -> option R).

Lemma run_lit (w : string) pos s caps k :
  JS.run (JS.lit w) pos s caps k =
  if String.prefix w s
  then k (pos + String.length w) (JS.substr (String.length w) s) caps
  else None.
Proof.
  revert pos s; induction w as [|c w IH]; intros pos s.
  - rewrite prefix_empty. cbn. now rewrite Nat.add_0_r.
  - destruct s as [|c' s]; [reflexivity|].
    cbn [JS.lit JS.run String.prefix String.length JS.substr].
    destruct (Ascii.eqb_spec c c') as [->|Hne]; destruct (ascii_dec _ _);
      try congruence.
    rewrite IH, Nat.add_succ_r. reflexivity.
Qed.

Lemma succ_eqb (n : nat) : (S n =? n)%nat = false.
Proof. apply Nat.eqb_neq. lia. Qed.

(** A greedy run of one class, followed by something that cannot start with
    a code unit of the class: only the longest run can lead to a match. *)
Lemma iterate_class_exclusive (p : ascii -> bool) k :
  (forall pos c s caps, p c = true -> k pos (String c s) caps = None) ->
  forall fuel pos s caps,
    String.length s <= fuel ->
    JS.iterate (JS.run (JS.Class p)) k fuel pos s caps
    = k (pos + Spec.run_length p s) (Spec.skip_while p s) caps.
Proof.
  intros Hk. induction fuel as [|fuel IH]; intros pos s caps Hlen.
  - destruct s; [|simpl in Hlen; lia]. cbn. now rewrite Nat.add_0_r.
  - cbn [JS.iterate JS.run]. destruct s as [|c s].
    + cbn. now rewrite Nat.add_0_r.
    + cbn [Spec.run_length Spec.skip_while]. destruct (p c) eqn:Hp.
      * rewrite succ_eqb, IH by (simpl in Hlen; lia).
        rewrite Nat.add_succ_r. cbn [Nat.add].
        destruct (k _ _ _); [reflexivity|]. now rewrite Hk.
      * now rewrite Nat.add_0_r.
Qed.

(** A greedy run of one class, followed by something that always matches:
    the longest run is taken. *)
Lemma iterate_class_greedy (p : ascii -> bool) k :
  (forall pos s caps, is_Some (k pos s caps)) ->
  forall fuel pos s caps,
    String.length s <= fuel ->
    JS.iterate (JS.run (JS.Class p)) k fuel pos s caps
    = k (pos + Spec.run_length p s) (Spec.skip_while p s) caps.
Proof.
  intros Hk. induction fuel as [|fuel IH]; intros pos s caps Hlen.
  - destruct s; [|simpl in Hlen; lia]. cbn. now rewrite Nat.add_0_r.
  - cbn [JS.iterate JS.run]. destruct s as [|c s].
    + cbn. now rewrite Nat.add_0_r.
    + cbn [Spec.run_length Spec.skip_while]. destruct (p c) eqn:Hp.
      * rewrite succ_eqb, IH by (simpl in Hlen; lia).
        rewrite Nat.add_succ_r. cbn [Nat.add].
        destruct (Hk (S (pos + Spec.run_length p s)) (Spec.skip_while p s) caps)
          as [x ->].
        reflexivity.
      * now rewrite Nat.add_0_r.
Qed.

End Matcher.

(** An expression anchored with [^] matches at index 0 or nowhere. *)
Lemma exec_from_anchored (r : JS.regex) (m pos : nat) (rest : string) :
  JS.exec_from (JS.Cat JS.Bol r) m (S pos) rest = None.
Proof.
  revert pos; induction rest as [|c rest IH]; intros pos; cbn; [reflexivity|].
  apply IH.
Qed.

Lemma match_anchored (r : JS.regex) (m : nat) (str : string) :
  JS.exec_from (JS.Cat JS.Bol r) m 0 str = JS.exec_at (JS.Cat JS.Bol r) m 0 str.
Proof.
  unfold JS.exec_from. destruct str as [|c str];
    destruct (JS.exec_at _ _ _ _); try reflexivity.
  apply exec_from_anchored.
Qed.

Lemma prefix_append_split (p q s : string) :
  String.prefix (p +:+ q) s
  = (String.prefix p s && String.prefix q (JS.substr (String.length p) s))%bool.
Proof.
  revert s; induction p as [|c p IH]; intros s.
  - now rewrite prefix_empty.
  - destruct s as [|c' s]; [reflexivity|].
    change (String c p +:+ q) with (String c (p +:+ q)).
    cbn [String.prefix String.length JS.substr].
    destruct (ascii_dec c c'); [apply IH | reflexivity].
Qed.

Lemma skip_while_substr (p : ascii -> bool) (s : string) :
  Spec.skip_while p s = JS.substr (Spec.run_length p s) s.
Proof.
  induction s as [|c s IH]; [reflexivity|]. cbn.
  destruct (p c); [exact IH | reflexivity].
Qed.

(** [.*] at the end of an expression always matches. *)
Lemma run_dot_star {R : Type} pos s caps
    (k : nat -> string -> list (option string) -> option R) :
  (forall pos s caps, is_Some (k pos s caps)) ->
  JS.run (JS.Star (JS.Class JS.dot)) pos s caps k
  = k (pos + Spec.run_length JS.dot s) (Spec.skip_while JS.dot s) caps.
Proof.
  intros Hk. cbn [JS.run]. now apply iterate_class_greedy.
Qed.

Section Unfold.
Context {R : Type}.
Implicit Types (k : nat -> string -> list (option string) -> option R).

Lemma run_cat r1 r2 pos s caps k :
  JS.run (JS.Cat r1 r2) pos s caps k
  = JS.run r1 pos s caps (fun pos' s' caps' => JS.run r2 pos' s' caps' k).
Proof. reflexivity. Qed.

Lemma run_bol r s caps k :
  JS.run (JS.Cat JS.Bol r) 0 s caps k = JS.run r 0 s caps k.
Proof. reflexivity. Qed.

Lemma run_plus_class p pos s caps k :
  JS.run (JS.Plus (JS.Class p)) pos s caps k
  = match s with
    | String c s' =>
        if p c then JS.run (JS.Star (JS.Class p)) (S pos) s' caps k else None
    | EmptyString => None
    end.
Proof. reflexivity. Qed.

Lemma run_opt_class p pos s caps k :
  JS.run (JS.Opt (JS.Class p)) pos s caps k
  = match s with
    | String c s' =>
        if p c
        then match k (S pos) s' caps with
             | Some x => Some x
             | None => k pos s caps
             end
        else k pos s caps
    | EmptyString => k pos s caps
    end.
Proof. destruct s as [|c s]; [reflexivity|]. cbn. now destruct (p c). Qed.

Lemma run_group i r pos s caps k :
  JS.run (JS.Group i r) pos s caps k
  = JS.run r pos s caps
      (fun pos' s' caps' =>
         k pos' s' (JS.set_capture i (JS.take (pos' - pos) s) caps')).
Proof. reflexivity. Qed.

(** A literal followed by a final [.*]. *)
Lemma run_lit_dot_star w pos s caps k :
  (forall pos s caps, is_Some (k pos s caps)) ->
  JS.run (JS.Cat (JS.lit w) (JS.Star (JS.Class JS.dot))) pos s caps k
  = if String.prefix w s
    then k (pos + String.length w
              + Spec.run_length JS.dot (JS.substr (String.length w) s))
           (Spec.skip_while JS.dot (JS.substr (String.length w) s)) caps
    else None.
Proof.
  intros Hk. rewrite run_cat, run_lit.
  destruct (String.prefix w s); [|reflexivity].
  now apply run_dot_star.
Qed.

Lemma run_star_class_exclusive p pos s caps k :
  (forall pos c s caps, p c = true -> k pos (String c s) caps = None) ->
  JS.run (JS.Star (JS.Class p)) pos s caps k
  = k (pos + Spec.run_length p s) (Spec.skip_while p s) caps.
Proof. intros Hk. cbn [JS.run]. now apply iterate_class_exclusive. Qed.

End Unfold.

(** The first expression of line 29 matches the values that begin with one
    or more word characters or hyphens followed by [://]. *)
Lemma exec_scheme (value : string) :
  exists res,
    JS.match_ re_scheme 0 value
    = if Spec.scheme_prefixed value then Some res else None.
Proof.
  unfold JS.match_, re_scheme. rewrite match_anchored. unfold JS.exec_at.
  rewrite run_bol, run_cat, run_plus_class. unfold Spec.scheme_prefixed.
  fold Spec.scheme_char.
  destruct value as [|c rest]; [exists (JS.mkMatch 0 "" []); reflexivity|].
  change (JS.word_char c || Ascii.eqb c "-")%bool with (Spec.scheme_char c).
  destruct (Spec.scheme_char c); [|exists (JS.mkMatch 0 "" []); reflexivity].
  cbn [andb]. rewrite run_star_class_exclusive.
  - cbv beta. rewrite run_lit_dot_star by (intros; eexists; reflexivity).
    destruct (String.prefix "://" (Spec.skip_while Spec.scheme_char rest));
      [eexists; reflexivity | exists (JS.mkMatch 0 "" []); reflexivity].
  - intros pos c' s caps Hc. cbv beta.
    rewrite run_lit_dot_star by (intros; eexists; reflexivity).
    rewrite prefix_head; [reflexivity|]. intros <-. discriminate Hc.
Qed.

(** The second expression of line 29 matches the values that begin with
    [data:]. *)
Lemma exec_data (value : string) :
  exists res,
    JS.match_ re_data 0 value
    = if Spec.data_uri value then Some res else None.
Proof.
  unfold JS.match_, re_data. rewrite match_anchored. unfold JS.exec_at.
  rewrite run_bol, run_lit_dot_star by (intros; eexists; reflexivity).
  unfold Spec.data_uri. destruct (String.prefix "data:" value);
    [eexists; reflexivity | exists (JS.mkMatch 0 "" []); reflexivity].
Qed.

(** The expression of line 34 matches the values that begin with [http://]
    or [https://]; the match starts at index 0 and group 1 spans it. *)
Lemma exec_http (value : string) :
  exists e,
    JS.match_ re_http 1 value
    = if Spec.http_url value
      then Some (JS.mkMatch 0 (JS.take e value) [Some (JS.take e value)])
      else None.
Proof.
  unfold JS.match_, re_http. rewrite match_anchored. unfold JS.exec_at.
  rewrite run_bol, run_group, run_cat, run_lit. unfold Spec.http_url.
  change "http://" with ("http" +:+ "://").
  change "https://" with ("http" +:+ "s" +:+ "://").
  rewrite !prefix_append_split.
  destruct (String.prefix "http" value); [|exists 0; reflexivity].
  cbn [andb Nat.add String.length]. rewrite run_cat, run_opt_class.
  destruct (JS.substr 4 value) as [|c b].
  - rewrite run_lit_dot_star by (intros; eexists; reflexivity).
    exists 0; reflexivity.
  - rewrite !run_lit_dot_star by (intros; eexists; reflexivity).
    destruct (Ascii.eqb_spec "s" c) as [<-|Hne].
    + rewrite (prefix_head ":" "s") by discriminate.
      change (String.prefix "s" (String "s" b)) with (String.prefix "" b).
      rewrite prefix_empty. cbn [orb andb JS.substr].
      destruct (String.prefix "://" b); [|exists 0; reflexivity].
      eexists. cbn [JS.set_capture repeat]. rewrite !Nat.sub_0_r. reflexivity.
    + rewrite (prefix_head "s" c) by exact Hne. cbn [andb]. rewrite orb_false_r.
      destruct (String.prefix "://" (String c b)); [|exists 0; reflexivity].
      eexists. cbn [JS.set_capture repeat]. rewrite !Nat.sub_0_r. reflexivity.
Qed.

(** ** AttributeRewriter *)

(** Line 34: a value that begins with [http://] or [https://] is prefixed
    with the proxy origin and a slash, any other value is left as it is. *)
Lemma replace_http (proxyOrigin value : string) :
  Spec.has_char "$" proxyOrigin = false ->
  JS.replace re_http 1 (proxyOrigin +:+ "/$1") value
  = if Spec.http_url value then proxyOrigin +:+ "/" +:+ value else value.
Proof.
  intros Hplain. unfold JS.replace. fold (JS.match_ re_http 1 value).
  destruct (exec_http value) as [e ->].
  destruct (Spec.http_url value); [|reflexivity].
  cbn [JS.index JS.matched JS.captures JS.take Nat.add].
  rewrite GetSubstitution_plain_prefix by exact Hplain.
  rewrite GetSubstitution_group1. cbn [String.append].
  rewrite !append_assoc. cbn [String.append].
  rewrite <- (take_length e value) at 1. now rewrite take_substr.
Qed.

Lemma truthy_nonempty (s : string) : s <> "" -> truthy s = true.
Proof. destruct s; [contradiction | reflexivity]. Qed.

(** Where the proxy origin holds no [$], AttributeRewriter does for a
    non-empty attribute value what the specification says: it resolves the
    value against the upstream origin when it has no [scheme://] prefix and is
    not a [data:] URI, and then writes back the proxy origin, a slash and the
    absolute URL when that URL begins with [http://] or [https://] (the value
    itself otherwise); nothing is written when the reference cannot be
    resolved.  In particular, with upstream [https://example.com] and proxy
    [https://proxy.test], the attribute [src=/logo.png] becomes
    [src=https://proxy.test/https://example.com/logo.png]. *)
Theorem attribute_rewritten (URL_resolve : string -> string -> option URL) :
  (forall (this : AttributeRewriter) (element : gmap string string)
          (value : string),
     Spec.has_char "$" (origin (proxy_url this)) = false ->
     element !! attribute this = Some value ->
     value <> "" ->
     onElement URL_resolve this element
     = (fun written => <[attribute this := written]> element)
         <$> Spec.rewritten_attribute
               (fun reference base => href <$> URL_resolve reference base)
               (origin (proxy_url this)) (origin (upstream_url this)) value)
  /\ (forall proxyURL upstreamURL : URL,
        origin proxyURL = "https://proxy.test" ->
        origin upstreamURL = "https://example.com" ->
        href <$> URL_resolve "/logo.png" "https://example.com"
        = Some "https://example.com/logo.png" ->
        onElement URL_resolve (mkAttributeRewriter "src" proxyURL upstreamURL)
          {[ "src" := "/logo.png" ]}
        = Some {[ "src" := "https://proxy.test/https://example.com/logo.png" ]}).
Proof.
  assert (General : forall (this : AttributeRewriter)
            (element : gmap string string) (value : string),
     Spec.has_char "$" (origin (proxy_url this)) = false ->
     element !! attribute this = Some value ->
     value <> "" ->
     onElement URL_resolve this element
     = (fun written => <[attribute this := written]> element)
         <$> Spec.rewritten_attribute
               (fun reference base => href <$> URL_resolve reference base)
               (origin (proxy_url this)) (origin (upstream_url this)) value).
  { intros this element value Hplain Hget Hne.
    unfold onElement, Spec.rewritten_attribute.
    rewrite Hget, (truthy_nonempty _ Hne).
    destruct (exec_scheme value) as [r1 ->], (exec_data value) as [r2 ->].
    assert (Hdec : forall (b : bool) (r : JS.MatchResult),
              bool_decide (is_Some (if b then Some r else None)) = b).
    { intros [] r; [apply bool_decide_eq_true | apply bool_decide_eq_false].
      - eexists; reflexivity.
      - intros [? [=]]. }
    rewrite !Hdec.
    destruct (negb (Spec.scheme_prefixed value) && negb (Spec.data_uri value))%bool.
    - destruct (URL_resolve value (origin (upstream_url this))) as [resolved|];
        [|reflexivity].
      cbn [fmap option_fmap option_map]. now rewrite replace_http.
    - cbn [fmap option_fmap option_map]. now rewrite replace_http. }
  split; [exact General|].
  intros proxyURL upstreamURL Hproxy Hupstream Hresolve.
  rewrite (General _ _ "/logo.png").
  - cbn [proxy_url upstream_url attribute]. rewrite Hproxy, Hupstream.
    unfold Spec.rewritten_attribute.
    change (negb (Spec.scheme_prefixed "/logo.png")
            && negb (Spec.data_uri "/logo.png"))%bool with true.
    cbv iota. rewrite Hresolve. cbn [fmap option_fmap option_map].
    change (Spec.http_url "https://example.com/logo.png") with true.
    cbv iota. rewrite insert_singleton_eq. reflexivity.
  - cbn [proxy_url]. rewrite Hproxy. reflexivity.
  - apply lookup_singleton_eq.
  - discriminate.
Qed.

Lemma attribute_rewritten_witness :
  origin Scenario.proxyURL = "https://proxy.test"
  /\ origin Scenario.upstreamURL = "https://example.com"
  /\ href <$> Scenario.URL_resolve "/logo.png" "https://example.com"
     = Some "https://example.com/logo.png"
  /\ onElement Scenario.URL_resolve
       (mkAttributeRewriter "src" Scenario.proxyURL Scenario.upstreamURL)
       {[ "src" := "/logo.png" ]}
     = Some {[ "src" := "https://proxy.test/https://example.com/logo.png" ]}
  /\ Spec.has_char "$" (origin Scenario.proxyURL) = false
  /\ onElement Scenario.URL_resolve
       (mkAttributeRewriter "href" Scenario.proxyURL Scenario.upstreamURL)
       {[ "href" := "https://example.com/page" ]}
     = Some {[ "href" := "https://proxy.test/https://example.com/page" ]}.
Proof.
  do 3 (split; [reflexivity|]).
  split; [apply (proj2 (attribute_rewritten Scenario.URL_resolve)); reflexivity|].
  split; [reflexivity|].
  etransitivity;
    [apply (proj1 (attribute_rewritten Scenario.URL_resolve)
              (mkAttributeRewriter "href" Scenario.proxyURL Scenario.upstreamURL)
              {[ "href" := "https://example.com/page" ]}
              "https://example.com/page");
       [reflexivity | reflexivity | discriminate]
    | vm_compute; reflexivity].
Defined.

(** C3. With the proxy origin [https://pro$1xy.test], the attribute
    [src=/logo.png] is not rewritten to the proxy origin, a slash and the
    absolute URL: line 34 interpolates the origin into the replacement
    template of [replace], which reads the [$1] in it as the first capture,
    so the absolute URL is written in the middle of the origin as well. *)
Theorem attribute_template_expands_dollar_patterns :
  onElement Scenario.URL_resolve
    (mkAttributeRewriter "src"
       (mkURL "https://pro$1xy.test/" "https://pro$1xy.test" "https:"
          "pro$1xy.test" "" "/")
       Scenario.upstreamURL)
    {[ "src" := "/logo.png" ]}
  = Some {[ "src" :=
              "https://prohttps://example.com/logo.pngxy.test/https://example.com/logo.png" ]}
  /\ Spec.rewritten_attribute
       (fun reference base => href <$> Scenario.URL_resolve reference base)
       "https://pro$1xy.test" (origin Scenario.upstreamURL) "/logo.png"
     = Some "https://pro$1xy.test/https://example.com/logo.png".
Proof. split; vm_compute; reflexivity. Qed.

(** ** TextNodeRewriter *)

Lemma onTexts_app (this : TextRewriter) (ts us : list Text) :
  onTexts this (ts ++ us) =
  let '(this', acts) := onTexts this ts in
  let '(this'', acts') := onTexts this' us in
  (this'', acts ++ acts').
Proof.
  revert this; induction ts as [|t ts IH]; intros this; simpl.
  - now destruct (onTexts this us).
  - destruct (onText this t) as [this1 a].
    rewrite IH. destruct (onTexts this1 ts) as [this2 acts].
    now destruct (onTexts this2 us).
Qed.

(** A node delivered to an instance whose buffer holds [b]: the chunks before
    the final one are removed, the final one is replaced by the rewrite of
    [b] followed by the whole node, and the buffer is empty again. *)
Lemma onTexts_node (rw : string -> string) (b : string)
    (init : list string) (final : string) :
  onTexts (mkTextRewriter rw b) (chunks init final) =
  (mkTextRewriter rw "",
   map (fun _ => Removed) init ++ [Replaced (rw (b +:+ node_text init final)) true]).
Proof.
  revert b; induction init as [|s init IH]; intros b.
  - reflexivity.
  - change (chunks (s :: init) final) with (mkText s false :: chunks init final).
    cbn [onTexts onText lastInTextNode text buffer rewriter].
    rewrite IH. cbn [map app node_text fold_right].
    now rewrite append_assoc.
Qed.

Lemma emitted_app (xs ys : list TextAction) :
  emitted (xs ++ ys) = emitted xs ++ emitted ys.
Proof. unfold emitted. apply omap_app. Qed.

Lemma emitted_removed {A} (l : list A) : emitted (map (fun _ => Removed) l) = [].
Proof. induction l; simpl; [reflexivity | assumption]. Qed.

(** C2. A logical text node delivered in any number of chunks to a fresh
    TextRewriter: each chunk before the final one is removed from the stream,
    the final chunk is replaced (as markup) by the rewrite function applied to
    the concatenation of all the chunks in arrival order, and so exactly one
    write reaches the output. *)
Theorem text_node_single_write (rw : string -> string)
    (init : list string) (final : string) :
  snd (onTexts (newTextRewriter rw) (chunks init final)) =
    map (fun _ => Removed) init ++ [Replaced (rw (node_text init final)) true]
  /\ emitted (snd (onTexts (newTextRewriter rw) (chunks init final))) =
       [rw (node_text init final)].
Proof.
  unfold newTextRewriter. rewrite onTexts_node. cbn [snd].
  split; [reflexivity|].
  rewrite emitted_app, emitted_removed. reflexivity.
Qed.

(** C8. The buffer is empty after every last-chunk event, whatever it held
    before; hence over any sequence of complete nodes handled by one instance
    the actions are those a fresh instance takes on each node alone, and the
    output for a node is the rewrite of that node's text only. *)
Theorem text_buffer_reset_between_nodes (rw : string -> string) :
  (forall (b s : string),
     buffer (fst (onText (mkTextRewriter rw b) (mkText s true))) = "")
  /\ (forall nodes : list (list string * string),
        onTexts (newTextRewriter rw)
          (concat (map (fun n => chunks (fst n) (snd n)) nodes)) =
        (newTextRewriter rw,
         concat (map (fun n =>
                   snd (onTexts (newTextRewriter rw) (chunks (fst n) (snd n))))
                 nodes)))
  /\ (forall nodes : list (list string * string),
        emitted (snd (onTexts (newTextRewriter rw)
                   (concat (map (fun n => chunks (fst n) (snd n)) nodes)))) =
        map (fun n => rw (node_text (fst n) (snd n))) nodes).
Proof.
  assert (Hseq : forall nodes : list (list string * string),
    onTexts (newTextRewriter rw)
      (concat (map (fun n => chunks (fst n) (snd n)) nodes)) =
    (newTextRewriter rw,
     concat (map (fun n =>
               snd (onTexts (newTextRewriter rw) (chunks (fst n) (snd n))))
             nodes))).
  { induction nodes as [|[init final] nodes IH]; [reflexivity|].
    cbn [map concat fst snd]. rewrite onTexts_app.
    unfold newTextRewriter at 1 3. rewrite !onTexts_node.
    fold (newTextRewriter rw). rewrite IH. reflexivity. }
  split; [reflexivity|]. split; [exact Hseq|].
  intros nodes. rewrite Hseq. cbn [snd].
  induction nodes as [|[init final] nodes IH]; [reflexivity|].
  cbn [map concat fst snd]. rewrite emitted_app, IH.
  unfold newTextRewriter at 1. rewrite onTexts_node. cbn [snd].
  rewrite emitted_app, emitted_removed. reflexivity.
Qed.

(** ** Orchestrator and request handler *)

(** Header names are compared in lower case. *)
Ltac lower_names :=
  repeat match goal with
         | |- context [lower ?s] =>
             let v := eval vm_compute in (lower s) in
             change (lower s) with v
         end.

Ltac header_lookups :=
  unfold Headers.get, Headers.has, Headers.set, Headers.delete;
  lower_names;
  repeat first
    [ rewrite lookup_insert_eq
    | rewrite lookup_delete_eq
    | rewrite lookup_insert_ne by discriminate
    | rewrite lookup_delete_ne by discriminate ].

Section WorkerProperties.

Variable URL_parse : string -> option URL.
Variable URL_set_protocol : URL -> string -> URL.
Variable upstream_fetch : FetchCall -> option Response.
Variable HTML_transform : list (string * Handler) -> string -> string.
Variable default_statusText : nat -> string.

(** C10. An upstream response without a [content-type] header is returned as
    it was received: same status, body and headers, none of the header
    modifications. *)
Theorem passthrough_without_content_type
    (request : Request) (proxyURL upstreamURL : URL) (upstreamResponse : Response) :
  URL_parse (url request) = Some proxyURL ->
  upstream_fetch (Spec.upstream_call request proxyURL upstreamURL) = Some upstreamResponse ->
  Headers.get "content-type" (headers upstreamResponse) = None ->
  proxy URL_parse upstream_fetch HTML_transform default_statusText request upstreamURL
  = ([Spec.upstream_call request proxyURL upstreamURL], Some upstreamResponse).
Proof.
  unfold Spec.upstream_call. intros Hurl Hfetch Hct. unfold proxy.
  rewrite Hurl, Hfetch. cbv zeta.
  assert (Hct' : forall v w x y z,
    Headers.get "content-type"
      (Headers.set "X-Forwarded-For" v
         (Headers.set "X-Forwarded-Proto" w
            (Headers.set "X-Forwarded-Host" x
               (Headers.delete "clear-site-data"
                  (Headers.delete "content-security-policy-report-only"
                     (Headers.delete "content-security-policy"
                        (Headers.set "access-control-allow-credentials" y
                           (Headers.set "access-control-allow-origin" z
                              (headers upstreamResponse))))))))) = None).
  { intros. revert Hct. header_lookups. trivial. }
  rewrite Hct'. reflexivity.
Qed.




(** C9. A request whose extracted upstream string does not parse is answered
    with status 400 and the body [What is that URL?], and no fetch is made.
    The handler extracts an upstream string from the requests it does not
    redirect at line 148, that is, from those that are not plain http. *)
Theorem malformed_target_400 (request : Request) (proxyURL : URL) :
  URL_parse (url request) = Some proxyURL ->
  protocol proxyURL <> "http:" ->
  URL_parse (upstream_of proxyURL) = None ->
  exists response,
    fetch URL_parse URL_set_protocol upstream_fetch HTML_transform default_statusText request
    = ([], Some response)
    /\ status response = 400
    /\ body response = "What is that URL?".
Proof.
  intros Hurl Hproto Hup. unfold fetch. rewrite Hurl.
  destruct (String.eqb_spec (protocol proxyURL) "http:") as [E|_];
    [contradiction|].
  unfold upstream_of in Hup. rewrite Hup.
  eexists. split; [reflexivity|]. split; reflexivity.
Qed.

(** A plain-http request is redirected before any upstream string is
    extracted. *)
Lemma http_redirect (request : Request) (proxyURL : URL) :
  URL_parse (url request) = Some proxyURL ->
  protocol proxyURL = "http:" ->
  exists response,
    fetch URL_parse URL_set_protocol upstream_fetch HTML_transform default_statusText request
    = ([], Some response)
    /\ status response = 301
    /\ body response = "http not allowed"
    /\ headers response !! "location"
       = Some (normalize_value (href (URL_set_protocol proxyURL "https:"))).
Proof.
  intros Hurl Hproto. unfold fetch. rewrite Hurl, Hproto.
  change (String.eqb "http:" "http:") with true. cbv iota zeta.
  eexists. split; [reflexivity|]. cbn [status body]. do 2 (split; [reflexivity|]).
  unfold Response_of_string. cbn [headers].
  destruct (Headers.has "content-type" _); header_lookups; reflexivity.
Qed.

End WorkerProperties.

(** ** The scenario, evaluated *)

Lemma passthrough_without_content_type_witness :
  Scenario.URL_parse (url Scenario.request) = Some Scenario.proxyURL
  /\ Headers.get "content-type" (headers Scenario.bare_response) = None
  /\ proxy Scenario.URL_parse (Scenario.upstream_fetch Scenario.bare_response)
    Scenario.HTML_transform Scenario.default_statusText Scenario.request Scenario.upstreamURL
  = ([Spec.upstream_call Scenario.request Scenario.proxyURL Scenario.upstreamURL],
     Some Scenario.bare_response).
Proof.
  split; [reflexivity|]. split; [reflexivity|].
  apply (passthrough_without_content_type Scenario.URL_parse
           (Scenario.upstream_fetch Scenario.bare_response)
           Scenario.HTML_transform Scenario.default_statusText Scenario.request Scenario.proxyURL
           Scenario.upstreamURL Scenario.bare_response);
    reflexivity.
Defined.

Lemma malformed_target_400_witness :
  Scenario.URL_parse (href Scenario.secureURL) = Some Scenario.secureURL
  /\ protocol Scenario.secureURL <> "http:"
  /\ Scenario.URL_parse (upstream_of Scenario.secureURL) = None
  /\ exists response,
    fetch Scenario.URL_parse Scenario.URL_set_protocol
      (Scenario.upstream_fetch Scenario.bare_response) Scenario.HTML_transform Scenario.default_statusText
      (mkRequest (href Scenario.secureURL) "GET" ∅)
    = ([], Some response)
    /\ status response = 400
    /\ body response = "What is that URL?".
Proof.
  split; [reflexivity|]. split; [discriminate|]. split; [reflexivity|].
  apply (malformed_target_400 Scenario.URL_parse Scenario.URL_set_protocol
           (Scenario.upstream_fetch Scenario.bare_response)
           Scenario.HTML_transform Scenario.default_statusText
           (mkRequest (href Scenario.secureURL) "GET" ∅) Scenario.secureURL);
    [reflexivity | discriminate | reflexivity].
Defined.

(** C4. With upstream [https://example.com] and proxy [https://proxy.test],
    the link header [</style.css>; rel=preload] of an HTML response comes
    back anchored at the upstream origin, not at the proxy origin: the
    orchestrator builds its rule engine as [rewrite(proxyURL, upstreamURL)],
    so the proxy URL is taken for the origin to replace and the upstream URL
    for the public one. *)
Theorem link_header_anchored_at_upstream :
  exists response,
    fetch Scenario.URL_parse Scenario.URL_set_protocol
      (Scenario.upstream_fetch Scenario.html_response) Scenario.HTML_transform Scenario.default_statusText
      Scenario.request
    = ([Spec.upstream_call Scenario.request Scenario.proxyURL Scenario.upstreamURL],
       Some response)
    /\ headers Scenario.html_response !! "link"
       = Some "</style.css>; rel=preload"
    /\ headers response !! "link"
       = Some "<https://example.com/style.css>; rel=preload"
    /\ rewrite Scenario.upstreamURL Scenario.proxyURL
         (Some "</style.css>; rel=preload")
       = "<https://proxy.test/style.css>; rel=preload".
Proof.
  eexists. split; [vm_compute; reflexivity|].
  split; [reflexivity|]. split; vm_compute; reflexivity.
Qed.

(** C6. A stylesheet goes through the buffered text branch, and the response
    returned carries the upstream headers as received: none of the headers
    the orchestrator has set is on it. *)
Theorem text_branch_drops_header_contract :
  exists response,
    fetch Scenario.URL_parse Scenario.URL_set_protocol
      (Scenario.upstream_fetch Scenario.css_response) Scenario.HTML_transform Scenario.default_statusText
      Scenario.request
    = ([Spec.upstream_call Scenario.request Scenario.proxyURL Scenario.upstreamURL],
       Some response)
    /\ headers response = headers Scenario.css_response
    /\ headers response !! "access-control-allow-origin" = None
    /\ ~ Spec.header_contract (headers response).
Proof.
  eexists. split; [vm_compute; reflexivity|].
  split; [reflexivity|]. split; [reflexivity|].
  intros (H & _). vm_compute in H. discriminate H.
Qed.

(** The text rewriters the orchestrator registers share that engine: an inline
    script delivered as [fetch('/] and [api')] is flushed once, anchored at
    the upstream origin. *)
Example inline_script_two_chunks :
  emitted
    (snd (onTexts
            (newTextRewriter
               (fun s => rewrite Scenario.proxyURL Scenario.upstreamURL (Some s)))
            (chunks ["fetch('/"] "api')")))
  = ["fetch('https://example.com/api')"].
Proof. reflexivity. Qed.

(** * Further properties *)

(** ** The route of a request *)

Lemma run_star_class_greedy {R : Type} (p : ascii -> bool) pos s caps
    (k : nat -> string -> list (option string) -> option R) :
  (forall pos s caps, is_Some (k pos s caps)) ->
  JS.run (JS.Star (JS.Class p)) pos s caps k
  = k (pos + Spec.run_length p s) (Spec.skip_while p s) caps.
Proof. intros Hk. cbn [JS.run]. now apply iterate_class_greedy. Qed.

Lemma take_prefix (w s : string) :
  String.prefix w s = true -> JS.take (String.length w) s = w.
Proof.
  revert s; induction w as [|c w IH]; intros s H; [now destruct s|].
  destruct s as [|c' s]; [discriminate|]. cbn [String.prefix] in H.
  destruct (ascii_dec c c') as [<-|]; [|discriminate].
  cbn [String.length JS.take]. now rewrite IH.
Qed.

Lemma substr_append (a b : string) : JS.substr (String.length a) (a +:+ b) = b.
Proof. induction a as [|c a IH]; [reflexivity | exact IH]. Qed.

Lemma substr_substr (n m : nat) (s : string) :
  JS.substr n (JS.substr m s) = JS.substr (m + n) s.
Proof.
  revert s; induction m as [|m IH]; intros s; [reflexivity|].
  destruct s as [|c s]; [now destruct n|]. apply IH.
Qed.


(** One or more slashes, then group 2 around a final [.*]. *)
Lemma run_slashes_target {R : Type} pos s caps
    (k : nat -> string -> list (option string) -> option R) :
  (forall pos s caps, is_Some (k pos s caps)) ->
  JS.run (JS.Cat (JS.Plus (JS.Class (Ascii.eqb "/")))
            (JS.Group 2 (JS.Star (JS.Class JS.dot)))) pos s caps k
  = if String.prefix "/" s
    then
      let target := Spec.skip_while Route.slash s in
      k (pos + Spec.run_length Route.slash s + Spec.run_length JS.dot target)
        (Spec.skip_while JS.dot target)
        (JS.set_capture 2 (JS.take (Spec.run_length JS.dot target) target) caps)
    else None.
Proof.
  intros Hk. rewrite run_cat, run_plus_class.
  destruct s as [|c s]; [reflexivity|].
  cbn [String.prefix Spec.skip_while Spec.run_length]. unfold Route.slash at 1 2.
  destruct (Ascii.eqb_spec "/" c) as [<-|Hne]; destruct (ascii_dec "/" _);
    try congruence.
  rewrite prefix_empty. fold Route.slash.
  rewrite run_star_class_greedy.
  - cbv beta. rewrite run_group, run_dot_star by (intros; apply Hk).
    cbv zeta. rewrite Nat.add_succ_r. cbn [Nat.add].
    change (Route.slash "/") with true. cbv iota.
    match goal with
    | |- context [S (?a + ?b) - S ?a] =>
        replace (S (a + b) - S a) with b by lia
    end.
    reflexivity.
  - intros pos' s' caps'. rewrite run_group, run_dot_star by (intros; apply Hk).
    apply Hk.
Qed.


Lemma substr_succ (n : nat) (s : string) :
  JS.substr (S n) s = JS.substr 1 (JS.substr n s).
Proof. rewrite substr_substr. f_equal. lia. Qed.

(** One attempt of the expression of line 155. *)
Lemma exec_route_at (pos : nat) (rest : string) :
  exists e,
    JS.exec_at re_route 2 pos rest
    = match Route.at_start rest with
      | Some (scheme, target) =>
          Some (JS.mkMatch pos (JS.take e rest) [Some scheme; Some target])
      | None => None
      end.
Proof.
  unfold JS.exec_at, re_route, Route.at_start.
  rewrite run_cat, run_lit.
  change "/https:" with ("/" +:+ "http" +:+ "s" +:+ ":").
  change "/http:" with ("/" +:+ "http" +:+ ":").
  rewrite !prefix_append_split.
  destruct (String.prefix "/" rest); [|exists 0; reflexivity].
  cbn [andb String.length]. rewrite run_cat, run_group, run_cat, run_lit.
  destruct (String.prefix "http" (JS.substr 1 rest)) eqn:Hhttp;
    [|exists 0; reflexivity].
  cbn [andb String.length]. rewrite run_cat, run_opt_class.
  rewrite !substr_substr. cbn [Nat.add].
  rewrite (substr_succ 6), (substr_succ 5).
  assert (Hscheme : forall w, String.prefix w (JS.substr 5 rest) = true ->
            JS.take (4 + String.length w) (JS.substr 1 rest) = "http" +:+ w).
  { intros w Hw. rewrite <- (take_prefix ("http" +:+ w) (JS.substr 1 rest)).
    - reflexivity.
    - rewrite prefix_append_split, Hhttp, substr_substr. exact Hw. }
  destruct (JS.substr 5 rest) as [|c b] eqn:Hb.
  - rewrite run_lit. exists 0; reflexivity.
  - rewrite !run_lit. cbv beta.
    rewrite !run_slashes_target by (intros; eexists; reflexivity).
    unfold Route.tail. cbn [String.length].
    change (JS.substr 1 (String c b)) with b.
    destruct (Ascii.eqb_spec "s" c) as [<-|Hne].
    + rewrite (prefix_head ":" "s") by discriminate.
      change (String.prefix "s" (String "s" b)) with (String.prefix "" b).
      rewrite prefix_empty. cbn [andb].
      destruct (String.prefix ":" b) eqn:Hcolon; [|exists 0; reflexivity].
      destruct (String.prefix "/" (JS.substr 1 b)); [|exists 0; reflexivity].
      eexists. cbv zeta. cbn [repeat JS.set_capture].
      replace (S (pos + 1 + 4) + 1 - (pos + 1)) with (4 + String.length "s:")
        by (cbn; lia).
      rewrite Hscheme; [reflexivity|].
      change "s:" with ("s" +:+ ":"). rewrite prefix_append_split.
      cbn [String.prefix String.length].
      change (JS.substr 1 (String "s" b)) with b.
      destruct (ascii_dec "s" "s"); [|contradiction].
      now rewrite prefix_empty, Hcolon.
    + rewrite (prefix_head "s" c) by exact Hne. cbn [andb].
      destruct (String.prefix ":" (String c b)) eqn:Hcolon;
        [|exists 0; reflexivity].
      destruct (String.prefix "/" b); [|exists 0; reflexivity].
      eexists. cbv zeta. cbn [repeat JS.set_capture].
      replace (pos + 1 + 4 + 1 - (pos + 1)) with (4 + String.length ":")
        by (cbn; lia).
      rewrite Hscheme by exact Hcolon. reflexivity.
Qed.

(** The first match of the expression of line 155 in [rest]. *)
Lemma exec_route_from (pos : nat) (rest : string) :
  JS.captures <$> JS.exec_from re_route 2 pos rest
  = (fun r => [Some (fst r); Some (snd r)]) <$> Route.first rest.
Proof.
  revert pos; induction rest as [|c rest IH]; intros pos;
    cbn [JS.exec_from Route.first].
  - destruct (exec_route_at pos "") as [e ->].
    now destruct (Route.at_start "") as [[]|].
  - destruct (exec_route_at pos (String c rest)) as [e ->].
    destruct (Route.at_start (String c rest)) as [[]|];
      [reflexivity | apply IH].
Qed.

(** Lines 139, 155 and 156 together. *)
Lemma upstream_of_route (proxyURL : URL) :
  upstream_of proxyURL
  = Route.assemble
      (Route.first (JS.substr (String.length (origin proxyURL)) (href proxyURL))).
Proof.
  unfold upstream_of, JS.match_.
  pose proof (exec_route_from 0
                (JS.substr (String.length (origin proxyURL)) (href proxyURL))) as H.
  destruct (JS.exec_from _ _ _ _) as [m|], (Route.first _) as [[scheme target]|];
    cbn in H; try discriminate; [|reflexivity].
  injection H as ->. reflexivity.
Qed.

Lemma skip_while_stops (p : ascii -> bool) (s : string) :
  match Spec.skip_while p s with
  | String c _ => p c = false
  | EmptyString => True
  end.
Proof.
  induction s as [|c s IH]; [exact I|]. cbn [Spec.skip_while].
  destruct (p c) eqn:E; [exact IH | exact E].
Qed.

Lemma take_run_line_free (s : string) :
  Route.line_free (JS.take (Spec.run_length JS.dot s) s) = true.
Proof.
  unfold Route.line_free. induction s as [|c s IH]; [reflexivity|].
  cbn [Spec.run_length]. destruct (JS.dot c) eqn:E; [|reflexivity].
  cbn [JS.take Spec.has_char]. unfold JS.dot in E.
  apply negb_true_iff, orb_false_elim in E as [E1 E2].
  rewrite (Ascii.eqb_sym "010"), (Ascii.eqb_sym "013"), E1, E2. exact IH.
Qed.

Lemma take_run_dot_all (s : string) :
  Route.line_free s = true -> JS.take (Spec.run_length JS.dot s) s = s.
Proof.
  unfold Route.line_free. induction s as [|c s IH]; intros H; [reflexivity|].
  cbn [Spec.has_char] in H. apply andb_prop in H as [H1 H2].
  apply negb_true_iff, orb_false_elim in H1 as [Hc1 H1].
  apply negb_true_iff, orb_false_elim in H2 as [Hc2 H2].
  cbn [Spec.run_length]. unfold JS.dot at 1.
  rewrite (Ascii.eqb_sym c "010"), (Ascii.eqb_sym c "013"), Hc1, Hc2.
  cbn [orb negb JS.take]. rewrite IH; [reflexivity|].
  now rewrite H1, H2.
Qed.

Lemma skip_slashes (n : nat) (s : string) :
  String.prefix "/" s = false ->
  Spec.skip_while Route.slash (Route.slashes n +:+ s) = s.
Proof.
  intros Hs. induction n as [|n IH]; [|exact IH].
  destruct s as [|c s]; [reflexivity|]. cbn [Route.slashes String.append].
  cbn [Spec.skip_while]. unfold Route.slash.
  destruct (Ascii.eqb_spec "/" c) as [<-|]; [|reflexivity].
  cbn [String.prefix] in Hs. destruct (ascii_dec "/" "/"); [|contradiction].
  now rewrite prefix_empty in Hs.
Qed.

(** What a match captures: one of the two schemes, and a target that does
    not begin with a slash and holds no line terminator. *)
Lemma at_start_shape (rest scheme target : string) :
  Route.at_start rest = Some (scheme, target) ->
  (scheme = "http:" \/ scheme = "https:")
  /\ String.prefix "/" target = false
  /\ Route.line_free target = true.
Proof.
  assert (Htail : forall sch after,
            Route.tail sch after = Some (scheme, target) ->
            scheme = sch /\ String.prefix "/" target = false
            /\ Route.line_free target = true).
  { unfold Route.tail. intros sch after H.
    destruct (String.prefix "/" after); [|discriminate].
    injection H as <- <-. split; [reflexivity|].
    split; [|apply take_run_line_free].
    pose proof (skip_while_stops Route.slash after) as Hstop.
    destruct (Spec.skip_while Route.slash after) as [|c t]; [reflexivity|].
    cbn [Spec.run_length]. destruct (JS.dot c); [|reflexivity].
    cbn [JS.take String.prefix]. unfold Route.slash in Hstop.
    destruct (ascii_dec "/" c) as [<-|]; [discriminate Hstop | reflexivity]. }
  unfold Route.at_start. intros H.
  destruct (String.prefix "/https:" rest).
  - apply Htail in H as (-> & ? & ?). auto.
  - destruct (String.prefix "/http:" rest); [|discriminate].
    apply Htail in H as (-> & ? & ?). auto.
Qed.

Lemma first_shape (rest scheme target : string) :
  Route.first rest = Some (scheme, target) ->
  (scheme = "http:" \/ scheme = "https:")
  /\ String.prefix "/" target = false
  /\ Route.line_free target = true.
Proof.
  induction rest as [|c rest IH]; cbn [Route.first]; intros H.
  - destruct (Route.at_start "") as [[]|] eqn:E; [|discriminate].
    injection H as -> ->. exact (at_start_shape _ _ _ E).
  - destruct (Route.at_start (String c rest)) as [[]|] eqn:E.
    + injection H as -> ->. exact (at_start_shape _ _ _ E).
    + exact (IH H).
Qed.

(** X1. The upstream string the handler extracts is empty, or it is [http:]
    or [https:], two slashes, and a target that neither begins with a slash
    nor holds a line terminator: no other scheme is ever forwarded to the URL
    constructor. *)
Theorem extracted_upstream_shape (proxyURL : URL) :
  upstream_of proxyURL = ""
  \/ exists scheme target,
       upstream_of proxyURL = scheme +:+ "//" +:+ target
       /\ (scheme = "http:" \/ scheme = "https:")
       /\ String.prefix "/" target = false
       /\ Route.line_free target = true.
Proof.
  rewrite upstream_of_route.
  destruct (Route.first _) as [[scheme target]|] eqn:E; [right | left; reflexivity].
  exists scheme, target. split; [reflexivity|]. exact (first_shape _ _ _ E).
Qed.

(** Decoding of a path that holds a scheme, slashes and a target. *)
Lemma upstream_of_encoded (proxyURL : URL) (scheme target : string) (n : nat) :
  href proxyURL
  = origin proxyURL +:+ "/" +:+ scheme +:+ Route.slashes (S n) +:+ target ->
  scheme = "http:" \/ scheme = "https:" ->
  String.prefix "/" target = false ->
  Route.line_free target = true ->
  upstream_of proxyURL = scheme +:+ "//" +:+ target.
Proof.
  intros Hhref Hscheme Hslash Hline.
  rewrite upstream_of_route, Hhref, substr_append.
  assert (Hat : Route.at_start ("/" +:+ scheme +:+ Route.slashes (S n) +:+ target)
                = Some (scheme, target)).
  { unfold Route.at_start, Route.tail.
    destruct Hscheme as [-> | ->];
      cbn [String.append String.prefix Route.slashes JS.substr];
      repeat (destruct (ascii_dec _ _); [|congruence]);
      try (destruct (ascii_dec "s" ":"); [discriminate|]);
      rewrite ?prefix_empty;
      change (String "/" (Route.slashes n +:+ target))
        with (Route.slashes (S n) +:+ target);
      rewrite skip_slashes, take_run_dot_all by assumption; reflexivity. }
  destruct (_ +:+ _) eqn:E in Hat |- *; cbn [Route.first]; now rewrite Hat.
Qed.

(** X2. A request URL whose path is a slash, [http:] or [https:], one or more
    slashes and a target (not beginning with a slash, without line
    terminator) yields that scheme, exactly two slashes and the target,
    however many slashes the path had. *)
Theorem route_collapses_slashes (proxyURL : URL) (scheme target : string) (n : nat) :
  href proxyURL
  = origin proxyURL +:+ "/" +:+ scheme +:+ Route.slashes (S n) +:+ target ->
  scheme = "http:" \/ scheme = "https:" ->
  String.prefix "/" target = false ->
  Route.line_free target = true ->
  upstream_of proxyURL = scheme +:+ "//" +:+ target.
Proof. apply upstream_of_encoded. Qed.

Lemma route_collapses_slashes_witness :
  href Cases.followURL
  = origin Cases.followURL +:+ "/" +:+ "https:" +:+ Route.slashes 2
      +:+ "example.com/page"
  /\ upstream_of Cases.followURL = "https:" +:+ "//" +:+ "example.com/page".
Proof.
  split; [reflexivity|].
  apply (route_collapses_slashes Cases.followURL "https:" "example.com/page" 1);
    [reflexivity | right; reflexivity | reflexivity | reflexivity].
Defined.

Lemma includes_longer (p q s : string) :
  JS.includes p s = false -> JS.includes (p +:+ q) s = false.
Proof.
  intros H. rewrite <- (append_empty_r p) in H.
  change (p +:+ q) with ("" +:+ p +:+ q).
  rewrite <- (includes_within "" p q s); [reflexivity|].
  now rewrite append_empty_r in H.
Qed.

Lemma first_absent (rest : string) :
  JS.includes "/http" rest = false -> Route.first rest = None.
Proof.
  induction rest as [|c rest IH]; intros H; cbn [Route.first];
    pose proof (includes_head _ _ H) as Hhead; unfold JS.startsWith in Hhead;
    unfold Route.at_start;
    change "/https:" with ("/http" +:+ "s:"); change "/http:" with ("/http" +:+ ":");
    rewrite !prefix_append_split, Hhead; cbn [andb]; [reflexivity|].
  apply IH. exact (includes_tail _ _ _ H).
Qed.

(** ** AttributeRewriter, further *)

Lemma prefix_append_r (w s t : string) :
  String.prefix w s = true -> String.prefix w (s +:+ t) = true.
Proof.
  intros H. rewrite (prefix_split _ _ H), append_assoc. apply prefix_append.
Qed.

Lemma http_scheme_prefixed (value : string) :
  Spec.http_url value = true -> Spec.scheme_prefixed value = true.
Proof.
  unfold Spec.http_url. intros H. apply orb_prop in H as [H|H];
    rewrite (prefix_split _ _ H); set (r := JS.substr _ value);
    clearbody r; clear H; cbv; now destruct r.
Qed.

Lemma data_not_http (value : string) :
  Spec.data_uri value = true -> Spec.http_url value = false.
Proof.
  unfold Spec.data_uri. intros H. rewrite (prefix_split _ _ H). reflexivity.
Qed.

Lemma matched_scheme (value : string) :
  bool_decide (is_Some (JS.match_ re_scheme 0 value)) = Spec.scheme_prefixed value.
Proof.
  destruct (exec_scheme value) as [r ->].
  destruct (Spec.scheme_prefixed value);
    [apply bool_decide_eq_true; eexists; reflexivity
    | apply bool_decide_eq_false; intros [? [=]]].
Qed.

Lemma matched_data (value : string) :
  bool_decide (is_Some (JS.match_ re_data 0 value)) = Spec.data_uri value.
Proof.
  destruct (exec_data value) as [r ->].
  destruct (Spec.data_uri value);
    [apply bool_decide_eq_true; eexists; reflexivity
    | apply bool_decide_eq_false; intros [? [=]]].
Qed.

(** Without a match the replacement of line 34 returns its input, whatever
    the template. *)
Lemma replace_not_http (template value : string) :
  Spec.http_url value = false -> JS.replace re_http 1 template value = value.
Proof.
  intros H. unfold JS.replace. fold (JS.match_ re_http 1 value).
  destruct (exec_http value) as [e ->]. now rewrite H.
Qed.

(** An [http(s)://] value is prefixed without consulting the URL
    constructor. *)
Lemma onElement_absolute (URL_resolve : string -> string -> option URL)
    (this : AttributeRewriter) (element : gmap string string) (value : string) :
  Spec.has_char "$" (origin (proxy_url this)) = false ->
  element !! attribute this = Some value ->
  Spec.http_url value = true ->
  onElement URL_resolve this element
  = Some (<[attribute this := origin (proxy_url this) +:+ "/" +:+ value]> element).
Proof.
  intros Hplain Hget Hhttp. unfold onElement. rewrite Hget.
  assert (truthy value = true) as ->.
  { destruct value; [discriminate Hhttp | reflexivity]. }
  rewrite matched_scheme, (http_scheme_prefixed _ Hhttp). cbn [negb andb].
  now rewrite replace_http, Hhttp.
Qed.

(** X3. AttributeRewriter changes nothing but the attribute it is configured
    for: every other attribute keeps its value, and the configured attribute
    is present afterwards exactly when it was present before. *)
Theorem onElement_frame (URL_resolve : string -> string -> option URL)
    (this : AttributeRewriter) (element element' : gmap string string) :
  onElement URL_resolve this element = Some element' ->
  (forall name, name <> attribute this -> element' !! name = element !! name)
  /\ (is_Some (element' !! attribute this) <-> is_Some (element !! attribute this)).
Proof.
  unfold onElement. intros H.
  destruct (element !! attribute this) as [value|] eqn:Hget.
  - destruct (truthy value).
    + match type of H with
      | match ?r with _ => _ end = _ => destruct r as [resolved|]
      end; [|discriminate].
      injection H as <-. split.
      * intros name Hne. now rewrite lookup_insert_ne.
      * rewrite lookup_insert_eq. split; eauto.
    + injection H as <-. rewrite Hget. split; [reflexivity | tauto].
  - injection H as <-. rewrite Hget. split; [reflexivity | tauto].
Qed.

Lemma onElement_frame_witness :
  onElement Scenario.URL_resolve
    (mkAttributeRewriter "src" Scenario.proxyURL Scenario.upstreamURL)
    (<["alt" := "logo"]> {[ "src" := "/logo.png" ]})
  = Some (<["src" := "https://proxy.test/https://example.com/logo.png"]>
            (<["alt" := "logo"]> {[ "src" := "/logo.png" ]}))
  /\ (<["src" := "https://proxy.test/https://example.com/logo.png"]>
        (<["alt" := "logo"]> ({[ "src" := "/logo.png" ]} : gmap string string)))
     !! "alt"
     = (<["alt" := "logo"]> ({[ "src" := "/logo.png" ]} : gmap string string))
       !! "alt".
Proof.
  assert (H : onElement Scenario.URL_resolve
    (mkAttributeRewriter "src" Scenario.proxyURL Scenario.upstreamURL)
    (<["alt" := "logo"]> {[ "src" := "/logo.png" ]})
  = Some (<["src" := "https://proxy.test/https://example.com/logo.png"]>
            (<["alt" := "logo"]> {[ "src" := "/logo.png" ]})))
    by (vm_compute; reflexivity).
  split; [exact H|].
  apply (proj1 (onElement_frame _ _ _ _ H)). discriminate.
Defined.

(** X4. A [data:] URI, and every value with a [scheme://] prefix other than
    [http://] and [https://], is written back as it is: the element is
    unchanged, the URL constructor is not consulted, and the handler does not
    throw. *)
Theorem onElement_foreign_scheme (URL_resolve : string -> string -> option URL)
    (this : AttributeRewriter) (element : gmap string string) (value : string) :
  element !! attribute this = Some value ->
  Spec.data_uri value = true
  \/ (Spec.scheme_prefixed value = true /\ Spec.http_url value = false) ->
  onElement URL_resolve this element = Some element.
Proof.
  intros Hget Hkind. unfold onElement. rewrite Hget.
  assert (Hhttp : Spec.http_url value = false).
  { destruct Hkind as [H|[_ H]]; [now apply data_not_http | exact H]. }
  assert (Hskip : (negb (Spec.scheme_prefixed value)
                   && negb (Spec.data_uri value))%bool = false).
  { destruct Hkind as [-> |[-> _]]; [apply andb_false_r | reflexivity]. }
  destruct (truthy value); [|reflexivity].
  rewrite matched_scheme, matched_data, Hskip, replace_not_http by exact Hhttp.
  now rewrite insert_id.
Qed.

Lemma onElement_foreign_scheme_witness :
  Spec.data_uri "data:image/png;base64,AAAA" = true
  /\ onElement Scenario.URL_resolve
       (mkAttributeRewriter "src" Scenario.proxyURL Scenario.upstreamURL)
       {[ "src" := "data:image/png;base64,AAAA" ]}
     = Some {[ "src" := "data:image/png;base64,AAAA" ]}.
Proof.
  split; [reflexivity|].
  apply (onElement_foreign_scheme Scenario.URL_resolve
           (mkAttributeRewriter "src" Scenario.proxyURL Scenario.upstreamURL)
           {[ "src" := "data:image/png;base64,AAAA" ]}
           "data:image/png;base64,AAAA");
    [reflexivity | left; reflexivity].
Defined.

(** X5. AttributeRewriter is not idempotent: when the proxy origin is itself
    an [http(s)://] origin, a second pass over the attribute it has written
    prefixes the proxy origin once more. *)
Theorem onElement_twice (URL_resolve : string -> string -> option URL)
    (this : AttributeRewriter) (element : gmap string string) (value : string) :
  Spec.has_char "$" (origin (proxy_url this)) = false ->
  Spec.http_url (origin (proxy_url this)) = true ->
  element !! attribute this = Some value ->
  Spec.http_url value = true ->
  exists once,
    onElement URL_resolve this element = Some once
    /\ onElement URL_resolve this once
       = Some (<[attribute this :=
                   origin (proxy_url this) +:+ "/" +:+ origin (proxy_url this)
                     +:+ "/" +:+ value]> element).
Proof.
  intros Hplain Horigin Hget Hhttp.
  exists (<[attribute this := origin (proxy_url this) +:+ "/" +:+ value]> element).
  split.
  - now apply onElement_absolute.
  - rewrite (onElement_absolute URL_resolve this _
               (origin (proxy_url this) +:+ "/" +:+ value) Hplain).
    + now rewrite insert_insert_eq.
    + apply lookup_insert_eq.
    + unfold Spec.http_url in *. apply orb_prop in Horigin as [H|H];
        rewrite (prefix_append_r _ _ _ H); [reflexivity | apply orb_true_r].
Qed.

Lemma onElement_twice_witness :
  Spec.has_char "$" (origin Scenario.proxyURL) = false
  /\ Spec.http_url (origin Scenario.proxyURL) = true
  /\ exists once,
       onElement Scenario.URL_resolve
         (mkAttributeRewriter "href" Scenario.proxyURL Scenario.upstreamURL)
         {[ "href" := "https://example.com/page" ]} = Some once
       /\ onElement Scenario.URL_resolve
            (mkAttributeRewriter "href" Scenario.proxyURL Scenario.upstreamURL)
            once
          = Some (<["href" :=
                      "https://proxy.test" +:+ "/" +:+ "https://proxy.test"
                        +:+ "/" +:+ "https://example.com/page"]>
                    {[ "href" := "https://example.com/page" ]}).
Proof.
  split; [reflexivity|]. split; [reflexivity|].
  apply (onElement_twice Scenario.URL_resolve
           (mkAttributeRewriter "href" Scenario.proxyURL Scenario.upstreamURL)
           {[ "href" := "https://example.com/page" ]} "https://example.com/page");
    reflexivity.
Defined.

(** ** Orchestrator and handler, further *)

(** The header names the orchestrator sets or deletes leave every other
    header of the copy as the upstream sent it. *)
Lemma modified_headers_keep (h : gmap string string) (name v w x y z : string) :
  lower name <> "x-forwarded-for" -> lower name <> "x-forwarded-proto" ->
  lower name <> "x-forwarded-host" -> lower name <> "clear-site-data" ->
  lower name <> "content-security-policy-report-only" ->
  lower name <> "content-security-policy" ->
  lower name <> "access-control-allow-credentials" ->
  lower name <> "access-control-allow-origin" ->
  Headers.get name
    (Headers.set "X-Forwarded-For" v
       (Headers.set "X-Forwarded-Proto" w
          (Headers.set "X-Forwarded-Host" x
             (Headers.delete "clear-site-data"
                (Headers.delete "content-security-policy-report-only"
                   (Headers.delete "content-security-policy"
                      (Headers.set "access-control-allow-credentials" y
                         (Headers.set "access-control-allow-origin" z h))))))))
  = Headers.get name h.
Proof.
  intros. unfold Headers.get, Headers.set, Headers.delete.
  rewrite !lookup_insert_ne, !lookup_delete_ne, !lookup_insert_ne
    by (apply not_eq_sym; assumption).
  reflexivity.
Qed.

Section WorkerFurther.

Variable URL_parse : string -> option URL.
Variable URL_set_protocol : URL -> string -> URL.
Variable upstream_fetch : FetchCall -> option Response.
Variable HTML_transform : list (string * Handler) -> string -> string.
Variable default_statusText : nat -> string.

(** X7. A plain-http request is answered, whatever its path, with status 301
    (and the status text the runtime gives a 301 constructed without one),
    the body [http not allowed] and exactly three headers: the HSTS policy,
    the location (the request URL with its protocol set to [https:]) and the
    content type of a string body.  No fetch is made. *)
Theorem plain_http_redirected (request : Request) (proxyURL : URL) :
  URL_parse (url request) = Some proxyURL ->
  protocol proxyURL = "http:" ->
  fetch URL_parse URL_set_protocol upstream_fetch HTML_transform default_statusText request
  = ([],
     Some (mkResponse 301 (default_statusText 301)
             (<["content-type" := "text/plain;charset=UTF-8"]>
                (<["location" :=
                     normalize_value (href (URL_set_protocol proxyURL "https:"))]>
                   (<["strict-transport-security" :=
                        "max-age=31536000; includeSubDomains; preload"]> ∅)))
             "http not allowed")).
Proof.
  intros Hurl Hproto. unfold fetch. rewrite Hurl, Hproto.
  change (String.eqb "http:" "http:") with true. cbv iota zeta.
  unfold Response_of_string.
  assert (Headers.has "content-type"
            (Headers.set "location" (href (URL_set_protocol proxyURL "https:"))
               (Headers.set "Strict-Transport-Security"
                  "max-age=31536000; includeSubDomains; preload" ∅)) = false) as ->.
  { unfold Headers.has. apply bool_decide_eq_false. header_lookups.
    rewrite lookup_empty. intros [? [=]]. }
  reflexivity.
Qed.

(** X8. A request that is not plain http and whose path nowhere holds
    [/http] is answered 400 (with the status text the runtime gives a 400
    constructed without one), with the body [What is that URL?] and the
    content type of a string body, without a fetch, on a runtime whose URL
    constructor rejects the empty string. *)
Theorem unrouted_path_400 (request : Request) (proxyURL : URL) :
  URL_parse (url request) = Some proxyURL ->
  protocol proxyURL <> "http:" ->
  JS.includes "/http"
    (JS.substr (String.length (origin proxyURL)) (href proxyURL)) = false ->
  URL_parse "" = None ->
  fetch URL_parse URL_set_protocol upstream_fetch HTML_transform default_statusText request
  = ([],
     Some (mkResponse 400 (default_statusText 400)
             {[ "content-type" := "text/plain;charset=UTF-8" ]}
             "What is that URL?")).
Proof.
  intros Hurl Hproto Hpath Hempty.
  pose proof (upstream_of_route proxyURL) as Hup.
  rewrite (first_absent _ Hpath) in Hup. unfold upstream_of in Hup.
  unfold fetch. rewrite Hurl.
  destruct (String.eqb_spec (protocol proxyURL) "http:"); [contradiction|].
  cbv zeta. rewrite Hup. cbn [Route.assemble]. rewrite Hempty. reflexivity.
Qed.

(** X9. The orchestrator makes exactly one fetch, whether it resolves or
    not and whichever branch follows: to the href of the upstream URL, with
    the method of the request, [Host] set to the upstream origin, [Referer]
    to the proxy origin, and every other request header as received. *)
Theorem proxy_single_fetch (request : Request) (proxyURL upstreamURL : URL) :
  URL_parse (url request) = Some proxyURL ->
  exists call,
    fst (proxy URL_parse upstream_fetch HTML_transform default_statusText request upstreamURL)
    = [call]
    /\ fetch_url call = href upstreamURL
    /\ fetch_method call = method request
    /\ Headers.get "Host" (fetch_headers call)
       = Some (normalize_value (origin upstreamURL))
    /\ Headers.get "Referer" (fetch_headers call)
       = Some (normalize_value (origin proxyURL))
    /\ forall name,
         lower name <> "host" -> lower name <> "referer" ->
         Headers.get name (fetch_headers call)
         = Headers.get name (request_headers request).
Proof.
  intros Hurl. exists (Spec.upstream_call request proxyURL upstreamURL).
  split.
  - unfold proxy, Spec.upstream_call. rewrite Hurl. cbv zeta.
    destruct (upstream_fetch _); [|reflexivity].
    repeat match goal with
           | |- context [if optional_test ?c ?t then _ else _] =>
               destruct (optional_test c t)
           | |- context [if (?a || ?b)%bool then _ else _] =>
               destruct (a || b)%bool
           end; reflexivity.
  - unfold Spec.upstream_call. cbn [fetch_url fetch_method fetch_headers].
    do 2 (split; [reflexivity|]).
    split; [header_lookups; reflexivity|].
    split; [header_lookups; reflexivity|].
    intros name Hhost Hreferer. unfold Headers.get, Headers.set.
    rewrite !lookup_insert_ne by (apply not_eq_sym; assumption). reflexivity.
Qed.

(** X10. Every response the orchestrator returns after the upstream fetch
    resolved carries the status of the upstream response, in each of the
    three branches: an upstream error status is passed on, not replaced. *)
Theorem proxy_keeps_status
    (request : Request) (proxyURL upstreamURL : URL) (upstreamResponse : Response) :
  URL_parse (url request) = Some proxyURL ->
  upstream_fetch (Spec.upstream_call request proxyURL upstreamURL)
  = Some upstreamResponse ->
  forall response,
    snd (proxy URL_parse upstream_fetch HTML_transform default_statusText request upstreamURL)
    = Some response ->
    status response = status upstreamResponse.
Proof.
  unfold Spec.upstream_call. intros Hurl Hfetch response. unfold proxy.
  rewrite Hurl, Hfetch. cbv zeta.
  repeat match goal with
         | |- context [if optional_test ?c ?t then _ else _] =>
             destruct (optional_test c t)
         | |- context [if (?a || ?b)%bool then _ else _] =>
             destruct (a || b)%bool
         end; cbn [snd]; intros [= <-]; reflexivity.
Qed.

(** X11. A response whose content type neither holds [text/html] nor begins
    with [text/], [application/x-javascript] or [application/javascript]
    (JSON, images, fonts) is returned as it was received. *)
Theorem passthrough_other_types
    (request : Request) (proxyURL upstreamURL : URL) (upstreamResponse : Response)
    (contentType : string) :
  URL_parse (url request) = Some proxyURL ->
  upstream_fetch (Spec.upstream_call request proxyURL upstreamURL)
  = Some upstreamResponse ->
  Headers.get "content-type" (headers upstreamResponse) = Some contentType ->
  JS.includes "text/html" contentType = false ->
  JS.startsWith "text/" contentType = false ->
  JS.startsWith "application/x-javascript" contentType = false ->
  JS.startsWith "application/javascript" contentType = false ->
  proxy URL_parse upstream_fetch HTML_transform default_statusText request upstreamURL
  = ([Spec.upstream_call request proxyURL upstreamURL], Some upstreamResponse).
Proof.
  unfold Spec.upstream_call. intros Hurl Hfetch Hct Hhtml Htext Hxjs Hjs.
  unfold proxy. rewrite Hurl, Hfetch. cbv zeta.
  rewrite (modified_headers_keep _ "content-type") by discriminate.
  rewrite Hct. cbn [optional_test]. now rewrite Hhtml, Htext, Hxjs, Hjs.
Qed.


(** X13. A fetch that rejects makes the handler reject: no response is
    produced, in particular not the 400 of the handler's [catch], which only
    guards the URL constructor. *)
Theorem network_failure_rejects (request : Request) (proxyURL upstreamURL : URL) :
  URL_parse (url request) = Some proxyURL ->
  protocol proxyURL <> "http:" ->
  URL_parse (upstream_of proxyURL) = Some upstreamURL ->
  upstream_fetch (Spec.upstream_call request proxyURL upstreamURL) = None ->
  fetch URL_parse URL_set_protocol upstream_fetch HTML_transform default_statusText request
  = ([Spec.upstream_call request proxyURL upstreamURL], None).
Proof.
  unfold Spec.upstream_call. intros Hurl Hproto Hup Hfetch. unfold fetch.
  rewrite Hurl.
  destruct (String.eqb_spec (protocol proxyURL) "http:"); [contradiction|].
  unfold upstream_of in Hup. cbv zeta. rewrite Hup.
  unfold proxy. rewrite Hurl. cbv zeta. now rewrite Hfetch.
Qed.


End WorkerFurther.

Section WorkerRouted.

Variable URL_parse : string -> option URL.
Variable URL_set_protocol : URL -> string -> URL.
Variable upstream_fetch : FetchCall -> option Response.
Variable HTML_transform : list (string * Handler) -> string -> string.
Variable default_statusText : nat -> string.


(** X16. A request that is not plain http, whose path is a slash, [http:] or
    [https:], one or more slashes and a target, and whose decoded target the
    URL constructor accepts, is handed to the orchestrator for that URL: the
    handler's result is the orchestrator's, and the one fetch goes to the
    href of the decoded URL. *)
Theorem routed_request_fetches_target
    (request : Request) (proxyURL upstreamURL : URL)
    (scheme target : string) (n : nat) :
  URL_parse (url request) = Some proxyURL ->
  protocol proxyURL <> "http:" ->
  href proxyURL
  = origin proxyURL +:+ "/" +:+ scheme +:+ Route.slashes (S n) +:+ target ->
  scheme = "http:" \/ scheme = "https:" ->
  String.prefix "/" target = false ->
  Route.line_free target = true ->
  URL_parse (scheme +:+ "//" +:+ target) = Some upstreamURL ->
  fetch URL_parse URL_set_protocol upstream_fetch HTML_transform default_statusText request
  = proxy URL_parse upstream_fetch HTML_transform default_statusText request upstreamURL
  /\ fst (fetch URL_parse URL_set_protocol upstream_fetch HTML_transform default_statusText request)
     = [Spec.upstream_call request proxyURL upstreamURL].
Proof.
  intros Hurl Hproto Hhref Hscheme Hslash Hline Hup.
  pose proof (upstream_of_encoded _ _ _ _ Hhref Hscheme Hslash Hline) as Hroute.
  assert (Hfetch :
    fetch URL_parse URL_set_protocol upstream_fetch HTML_transform default_statusText request
    = proxy URL_parse upstream_fetch HTML_transform default_statusText request upstreamURL).
  { unfold fetch. rewrite Hurl.
    destruct (String.eqb_spec (protocol proxyURL) "http:"); [contradiction|].
    unfold upstream_of in Hroute. cbv zeta. now rewrite Hroute, Hup. }
  split; [exact Hfetch|]. rewrite Hfetch.
  unfold proxy, Spec.upstream_call. rewrite Hurl. cbv zeta.
  destruct (upstream_fetch _); [|reflexivity].
  repeat match goal with
         | |- context [if optional_test ?c ?t then _ else _] =>
             destruct (optional_test c t)
         | |- context [if (?a || ?b)%bool then _ else _] =>
             destruct (a || b)%bool
         end; reflexivity.
Qed.

End WorkerRouted.

(** ** TextRewriter, further *)

Lemma onTexts_cons (this : TextRewriter) (t : Text) (ts : list Text) :
  onTexts this (t :: ts)
  = (fst (onTexts (fst (onText this t)) ts),
     snd (onText this t) :: snd (onTexts (fst (onText this t)) ts)).
Proof.
  cbn [onTexts]. destruct (onText this t) as [this' a]. cbn [fst snd].
  now destruct (onTexts this' ts).
Qed.

Lemma onText_rewriter (this : TextRewriter) (t : Text) :
  rewriter (fst (onText this t)) = rewriter this.
Proof. unfold onText. now destruct (lastInTextNode t). Qed.

Lemma emitted_cons (a : TextAction) (acts : list TextAction) :
  emitted (a :: acts)
  = match a with
    | Replaced content _ => content :: emitted acts
    | Removed => emitted acts
    end.
Proof. now destruct a. Qed.

(** X17. Over any sequence of chunk events, flagged or not in any order, the
    handler removes exactly the unflagged chunks and replaces exactly the
    flagged ones, as markup; the writes that reach the output are as many as
    the flagged chunks. *)
Theorem text_actions_follow_flags (this : TextRewriter) (ts : list Text) :
  Forall2
    (fun t a =>
       if lastInTextNode t then exists content, a = Replaced content true
       else a = Removed)
    ts (snd (onTexts this ts))
  /\ length (emitted (snd (onTexts this ts)))
     = length (List.filter lastInTextNode ts).
Proof.
  revert this; induction ts as [|t ts IH]; intros this.
  - split; [constructor | reflexivity].
  - rewrite onTexts_cons. cbn [snd].
    destruct (IH (fst (onText this t))) as [IHa IHn]. split.
    + constructor; [|exact IHa]. unfold onText.
      destruct (lastInTextNode t); [eexists|]; reflexivity.
    + rewrite emitted_cons. unfold onText at 1. cbn [List.filter].
      destruct (lastInTextNode t); cbn [snd length]; [f_equal|]; exact IHn.
Qed.

(** X18. No text is lost, duplicated or reordered by the buffering: over any
    sequence of chunk events the outputs are the rewrite function applied to
    consecutive segments, and these segments followed by what is left in the
    buffer are the initial buffer followed by all the chunk texts. *)
Theorem text_conserved (this : TextRewriter) (ts : list Text) :
  exists segments,
    emitted (snd (onTexts this ts)) = map (rewriter this) segments
    /\ fold_right String.append (buffer (fst (onTexts this ts))) segments
       = buffer this +:+ fold_right String.append "" (map text ts).
Proof.
  revert this; induction ts as [|t ts IH]; intros this.
  - exists []. split; [reflexivity|]. cbn. now rewrite append_empty_r.
  - rewrite onTexts_cons. cbn [fst snd map fold_right].
    destruct (IH (fst (onText this t))) as (segs & Hout & Hcat).
    rewrite onText_rewriter in Hout. unfold onText in *.
    destruct (lastInTextNode t); cbn [fst snd buffer] in *.
    + exists ((buffer this +:+ text t) :: segs). split.
      * rewrite emitted_cons. cbn [map]. f_equal. exact Hout.
      * cbn [fold_right]. rewrite Hcat. cbn [String.append].
        now rewrite append_assoc.
    + exists segs. split; [rewrite emitted_cons; exact Hout|].
      now rewrite Hcat, append_assoc.
Qed.

(** ** RuleEngine, further *)

(** X19. For a public URL without [$] in its origin, host, port and path, and
    without a double quote or [<] in its origin, the seven [replaceAll] calls
    of [rewrite] are five literal rules applied in order, each to the output
    of the one before: the three calls of lines 54 to 56 amount to one pass
    that inserts the public origin after every quote or [<] followed by a
    slash. *)
Theorem rewrite_is_rule_pipeline (upstreamURL publicURL : URL) (text : string) :
  Spec.plain_public publicURL = true ->
  rewrite upstreamURL publicURL (Some text)
  = Spec.RuleEngine upstreamURL publicURL text.
Proof. apply rewrite_refines_rules. Qed.

(** ** The link header *)

Section LinkHeader.

Variable URL_parse : string -> option URL.
Variable upstream_fetch : FetchCall -> option Response.
Variable HTML_transform : list (string * Handler) -> string -> string.
Variable default_statusText : nat -> string.


End LinkHeader.

(** ** The scenario, further *)

Lemma plain_http_redirected_witness :
  Scenario.URL_parse (href Scenario.plainURL) = Some Scenario.plainURL
  /\ protocol Scenario.plainURL = "http:"
  /\ status
       <$> snd (fetch Scenario.URL_parse Scenario.URL_set_protocol Cases.unreachable
                  Scenario.HTML_transform Scenario.default_statusText
                  (mkRequest (href Scenario.plainURL) "GET" ∅))
     = Some 301.
Proof.
  split; [reflexivity|]. split; [reflexivity|].
  rewrite (plain_http_redirected Scenario.URL_parse Scenario.URL_set_protocol
             Cases.unreachable Scenario.HTML_transform Scenario.default_statusText
             (mkRequest (href Scenario.plainURL) "GET" ∅) Scenario.plainURL);
    reflexivity.
Defined.

Lemma unrouted_path_400_witness :
  JS.includes "/http"
    (JS.substr (String.length (origin Scenario.secureURL))
       (href Scenario.secureURL)) = false
  /\ Scenario.URL_parse "" = None
  /\ status
       <$> snd (fetch Scenario.URL_parse Scenario.URL_set_protocol Cases.unreachable
                  Scenario.HTML_transform Scenario.default_statusText
                  (mkRequest (href Scenario.secureURL) "GET" ∅))
     = Some 400.
Proof.
  split; [reflexivity|]. split; [reflexivity|].
  rewrite (unrouted_path_400 Scenario.URL_parse Scenario.URL_set_protocol
             Cases.unreachable Scenario.HTML_transform Scenario.default_statusText
             (mkRequest (href Scenario.secureURL) "GET" ∅) Scenario.secureURL);
    [reflexivity | reflexivity | discriminate | reflexivity | reflexivity].
Defined.

Lemma proxy_single_fetch_witness :
  exists call,
    fst (proxy Scenario.URL_parse Cases.unreachable Scenario.HTML_transform Scenario.default_statusText
           Cases.page_request Scenario.upstreamURL) = [call]
    /\ fetch_url call = "https://example.com/"
    /\ fetch_method call = "POST".
Proof.
  destruct (proxy_single_fetch Scenario.URL_parse Cases.unreachable
              Scenario.HTML_transform Scenario.default_statusText Cases.page_request Scenario.proxyURL
              Scenario.upstreamURL eq_refl)
    as (call & Hcall & Hurl & Hmethod & _).
  exists call. split; [exact Hcall|]. split; [exact Hurl | exact Hmethod].
Defined.

Lemma proxy_keeps_status_witness :
  exists response,
    snd (proxy Scenario.URL_parse (Scenario.upstream_fetch Cases.json_response)
           Scenario.HTML_transform Scenario.default_statusText Scenario.request Scenario.upstreamURL)
    = Some response
    /\ status response = 404.
Proof.
  eexists. split; [reflexivity|].
  apply (proxy_keeps_status Scenario.URL_parse
           (Scenario.upstream_fetch Cases.json_response) Scenario.HTML_transform
           Scenario.default_statusText
           Scenario.request Scenario.proxyURL Scenario.upstreamURL
           Cases.json_response);
    reflexivity.
Defined.

Lemma passthrough_other_types_witness :
  Headers.get "content-type" (headers Cases.json_response)
  = Some "application/json"
  /\ proxy Scenario.URL_parse (Scenario.upstream_fetch Cases.json_response)
       Scenario.HTML_transform Scenario.default_statusText Scenario.request Scenario.upstreamURL
     = ([Spec.upstream_call Scenario.request Scenario.proxyURL Scenario.upstreamURL],
        Some Cases.json_response).
Proof.
  split; [reflexivity|].
  apply (passthrough_other_types Scenario.URL_parse
           (Scenario.upstream_fetch Cases.json_response) Scenario.HTML_transform Scenario.default_statusText
           Scenario.request Scenario.proxyURL Scenario.upstreamURL
           Cases.json_response "application/json");
    reflexivity.
Defined.



Lemma network_failure_rejects_witness :
  Scenario.URL_parse (upstream_of Scenario.proxyURL) = Some Scenario.upstreamURL
  /\ fetch Scenario.URL_parse Scenario.URL_set_protocol Cases.unreachable
       Scenario.HTML_transform Scenario.default_statusText Scenario.request
     = ([Spec.upstream_call Scenario.request Scenario.proxyURL Scenario.upstreamURL],
        None).
Proof.
  split; [reflexivity|].
  apply (network_failure_rejects Scenario.URL_parse Scenario.URL_set_protocol
           Cases.unreachable Scenario.HTML_transform Scenario.default_statusText Scenario.request
           Scenario.proxyURL Scenario.upstreamURL);
    [reflexivity | discriminate | reflexivity | reflexivity].
Defined.


Lemma routed_request_fetches_target_witness :
  href Cases.followURL
  = origin Cases.followURL +:+ "/" +:+ "https:" +:+ Route.slashes 2
      +:+ "example.com/page"
  /\ fst (fetch Cases.URL_parse Scenario.URL_set_protocol Cases.unreachable
            Scenario.HTML_transform Scenario.default_statusText (mkRequest (href Cases.followURL) "GET" ∅))
     = [mkFetchCall "https://example.com/page" "GET"
          (<["referer" := "https://proxy.test"]>
             (<["host" := "https://example.com"]> ∅))].
Proof.
  split; [reflexivity|].
  apply (routed_request_fetches_target Cases.URL_parse
           Scenario.URL_set_protocol Cases.unreachable Scenario.HTML_transform Scenario.default_statusText
           (mkRequest (href Cases.followURL) "GET" ∅) Cases.followURL
           (mkURL "https://example.com/page" "https://example.com" "https:"
              "example.com" "" "/page")
           "https:" "example.com/page" 1);
    [reflexivity | discriminate | reflexivity | right; reflexivity
    | reflexivity | reflexivity | reflexivity].
Defined.

Lemma rewrite_is_rule_pipeline_witness :
  Spec.plain_public Scenario.publicURL = true
  /\ rewrite Scenario.upstreamURL Scenario.publicURL
       (Some "<a href='/x'>https://example.com/y</a>")
     = Spec.RuleEngine Scenario.upstreamURL Scenario.publicURL
         "<a href='/x'>https://example.com/y</a>".
Proof.
  split; [reflexivity|]. apply rewrite_is_rule_pipeline. reflexivity.
Defined.

